(** * Verified fragments of the ScienceBetter tutorial notebooks

    The notebooks are short Python scripts over numpy arrays.  This file
    embeds the fragments that compute something locally and proves what they
    do.

    Number model.  The extinction curve is embedded over the real numbers
    [R]; binary64 rounding is outside that model.  The coordinate limits and
    the cells that compare and copy values (the flux filter, the NaN scrub,
    the canvas padding, the star selection) are embedded over primitive
    binary64 floats, so rounding and NaN behave as they do in numpy.
    Catalogue columns that are only ordered (mass ratios, exposure times)
    are rationals. *)

From Stdlib Require Import Reals Lra Lia List Bool ZArith.
From Stdlib Require Import Permutation Sorted.
From Stdlib Require Ascii String Floats QArith Qfield DecimalString DecimalPos DecimalZ.
From Stdlib Require OrderedTypeEx.
Import ListNotations.

(** ** Calls that can raise *)

Module Fallible.

(** A Python call that either returns a value or raises: [None] stands for
    the exception. *)
Definition bind {A B : Type} (o : option A) (f : A -> option B) : option B :=
  match o with Some a => f a | None => None end.

Notation "x <- o ;; k" := (bind o (fun x => k))
  (at level 61, o at next level, right associativity).

End Fallible.

(** ** GALEX mosaic notebook: the coordinate limits of an image *)

Module Mosaic.

Import Floats QArith.
Local Open Scope float_scope.





(** The rational number a binary64 value stands for; zero for the values
    that stand for none (infinities, NaN), which [is_finite] tells apart. *)
Definition value (x : float) : Q :=
  match Prim2SF x with
  | S754_finite s m e => (if s then - inject_Z (Zpos m) else inject_Z (Zpos m)) * Qpower 2 e
  | _ => 0%Q
  end.

(** The result [r] of one binary64 operation is the number [q] the
    operation has in exact arithmetic: nothing was rounded away. *)
Definition exact (r : float) (q : Q) : Prop :=
  is_finite r = true /\ (value r == q)%Q.




Section Cosine.

(** [np.cos], the cosine of the C library: its values are not the
    notebook's to compute. *)
Variable np_cos : float -> float.












End Cosine.



End Mosaic.

(** ** UV extinction notebook: the Fitzpatrick-Massa curve *)

Module Extinction.

Local Open Scope R_scope.

(** numpy array arithmetic on one-dimensional arrays of one length. *)
Definition np_zeros (n : nat) : list R := repeat 0 n.
Definition scal (c : R) (a : list R) : list R := map (fun v => c * v) a.
Definition shift (c : R) (a : list R) : list R := map (fun v => c + v) a.
Definition vadd (a b : list R) : list R := map (fun p => fst p + snd p) (combine a b).

(** [0.5392*(x-5.9)**2+0.05644*(x-5.9)**3], on the whole array [x]. *)
Definition farUV_poly (v : R) : R := 0.5392 * (v - 5.9) ^ 2 + 0.05644 * (v - 5.9) ^ 3.
Definition farUV (x : list R) : list R := map farUV_poly x.

(** [x**2/((x**2-xo**2)**2+x**2*gamma**2)] *)
Definition drude (xo gamma v : R) : R :=
  v ^ 2 / ((v ^ 2 - xo ^ 2) ^ 2 + v ^ 2 * gamma ^ 2).

(** One turn of [for i in range(len(x))]: the test reads [x[i]], the
    assignment rebinds the whole array [F]. *)
Definition loop_body (x : list R) (F : list R) (i : nat) : list R :=
  if Rge_dec (nth i x 0) 5.9 then farUV x else F.

(** [def FMpar(x, C1, C2, C3, C4, xo, gamma)] *)
Definition FMpar (x : list R) (C1 C2 C3 C4 xo gamma : R) : list R :=
  let F := fold_left (loop_body x) (seq 0 (length x)) (np_zeros (length x)) in
  let D := map (drude xo gamma) x in
  let k := vadd (vadd (shift C1 (scal C2 x)) (scal C3 D)) (scal C4 F) in
  k.

(** [def FMpar(x, C1, C2, C3, C4)] of the SMC part, with [xo = 4.6] and
    [gamma = 1.0] bound in the body. *)
Definition FMpar_SMC (x : list R) (C1 C2 C3 C4 : R) : list R :=
  let xo := 4.6 in
  let gamma := 1.0 in
  let F := fold_left (loop_body x) (seq 0 (length x)) (np_zeros (length x)) in
  let D := map (drude xo gamma) x in
  let k := vadd (vadd (shift C1 (scal C2 x)) (scal C3 D)) (scal C4 F) in
  k.

(** The far-UV term of the parametrization as the notebook's text gives it:
    the polynomial from 5.9 on, zero below. *)
Definition F_pointwise (v : R) : R :=
  if Rge_dec v 5.9 then farUV_poly v else 0.

(** The curve of the notebook's text at one abscissa. *)
Definition FM_closed_form (C1 C2 C3 C4 xo gamma v : R) : R :=
  C1 + C2 * v + C3 * drude xo gamma v + C4 * F_pointwise v.

(** Some element of [x] reaches the threshold. *)
Definition any_ge (x : list R) : bool :=
  existsb (fun v => if Rge_dec v 5.9 then true else false) x.

(** What the body computes at one abscissa, given whether the loop rebound
    [F]. *)
Definition FMpar_entry (hit : bool) (C1 C2 C3 C4 xo gamma v : R) : R :=
  C1 + C2 * v + C3 * drude xo gamma v + C4 * (if hit then farUV_poly v else 0).

Lemma FMpar_SMC_eq (x : list R) (C1 C2 C3 C4 : R) :
  FMpar_SMC x C1 C2 C3 C4 = FMpar x C1 C2 C3 C4 4.6 1.0.
Proof. reflexivity. Qed.

Lemma loop_fold (x : list R) (idx : list nat) (F : list R) :
  fold_left (loop_body x) idx F =
    if existsb (fun i => if Rge_dec (nth i x 0) 5.9 then true else false) idx
    then farUV x else fold_left (loop_body x) [] F.
Proof.
  revert F. induction idx as [| i idx IH]; intros F; [reflexivity | ].
  cbn [fold_left existsb]. rewrite IH. unfold loop_body at 2.
  destruct (Rge_dec (nth i x 0) 5.9); cbn [orb fold_left].
  - destruct (existsb _ idx); reflexivity.
  - reflexivity.
Qed.

Lemma map_nth_indices {A B : Type} (f : A -> B) (d : A) (l : list A) :
  map (fun i => f (nth i l d)) (seq 0 (length l)) = map f l.
Proof.
  induction l as [| a l IH]; [reflexivity | ].
  cbn [length seq map nth]. f_equal.
  rewrite <- seq_shift, map_map. exact IH.
Qed.

Lemma existsb_map {A B : Type} (p : B -> bool) (f : A -> B) (l : list A) :
  existsb p (map f l) = existsb (fun a => p (f a)) l.
Proof. induction l as [| a l IH]; cbn; [ | rewrite IH]; reflexivity. Qed.

Lemma loop_result (x : list R) :
  fold_left (loop_body x) (seq 0 (length x)) (np_zeros (length x)) =
    if any_ge x then farUV x else np_zeros (length x).
Proof.
  rewrite loop_fold. unfold any_ge.
  rewrite <- (existsb_map (fun v => if Rge_dec v 5.9 then true else false)
                          (fun i => nth i x 0)).
  rewrite (map_nth_indices (fun v => v) 0 x), map_id. reflexivity.
Qed.

Lemma np_zeros_map (x : list R) : np_zeros (length x) = map (fun _ => 0) x.
Proof. induction x as [| a x IH]; cbn; [ | unfold np_zeros in IH; rewrite IH]; reflexivity. Qed.

Lemma combine_map_map {A B C : Type} (f : A -> B) (g : A -> C) (l : list A) :
  combine (map f l) (map g l) = map (fun a => (f a, g a)) l.
Proof. induction l as [| a l IH]; cbn; [ | rewrite IH]; reflexivity. Qed.

(** The array [FMpar] returns, entry by entry. *)
Lemma FMpar_entries (x : list R) (C1 C2 C3 C4 xo gamma : R) :
  FMpar x C1 C2 C3 C4 xo gamma = map (FMpar_entry (any_ge x) C1 C2 C3 C4 xo gamma) x.
Proof.
  unfold FMpar. rewrite loop_result.
  assert (HF : (if any_ge x then farUV x else np_zeros (length x))
               = map (fun v => if any_ge x then farUV_poly v else 0) x).
  { destruct (any_ge x); [reflexivity | apply np_zeros_map]. }
  rewrite HF. unfold vadd, shift, scal. rewrite !map_map.
  rewrite combine_map_map, map_map. cbn [fst snd].
  rewrite combine_map_map, map_map. cbn [fst snd]. reflexivity.
Qed.

Lemma any_ge_false (x : list R) :
  any_ge x = false -> forall v, In v x -> F_pointwise v = 0.
Proof.
  unfold any_ge. intros H v Hin. unfold F_pointwise.
  destruct (Rge_dec v 5.9) as [Hge | Hlt]; [ | reflexivity].
  exfalso. assert (Ht : existsb (fun v => if Rge_dec v 5.9 then true else false) x = true).
  { apply existsb_exists. exists v. split; [exact Hin | ].
    destruct (Rge_dec v 5.9); [reflexivity | contradiction]. }
  congruence.
Qed.

(** Where the threshold splits nothing, the code and the text agree: on an
    array that lies wholly on one side of 5.9 every entry is the closed form. *)
Lemma FMpar_closed_form_one_sided (x : list R) (C1 C2 C3 C4 xo gamma : R) :
  (forall v, In v x -> v >= 5.9) \/ (forall v, In v x -> v < 5.9) ->
  FMpar x C1 C2 C3 C4 xo gamma = map (FM_closed_form C1 C2 C3 C4 xo gamma) x.
Proof.
  intros Hside. rewrite FMpar_entries. apply map_ext_in. intros v Hin.
  unfold FMpar_entry, FM_closed_form. f_equal. f_equal.
  destruct Hside as [Hall | Hnone].
  - assert (Hany : any_ge x = true).
    { apply existsb_exists. exists v. split; [exact Hin | ].
      destruct (Rge_dec v 5.9) as [_ | Hn]; [reflexivity | ].
      exfalso. apply Hn. apply Hall. exact Hin. }
    rewrite Hany. unfold F_pointwise.
    destruct (Rge_dec v 5.9) as [_ | Hn]; [reflexivity | ].
    exfalso. apply Hn. apply Hall. exact Hin.
  - destruct (any_ge x) eqn:Hany.
    + apply existsb_exists in Hany. destruct Hany as [u [Hu Hge]].
      destruct (Rge_dec u 5.9) as [Hg | _]; [ | discriminate].
      specialize (Hnone u Hu). lra.
    + symmetry. apply (any_ge_false x Hany v Hin).
Qed.

(** C1 at an array that straddles the threshold, [x = [3; 6]] with
    [C4 = 1]: the entry for [x[0] = 3 < 5.9] carries the far-UV polynomial,
    where the closed form has a zero term.  The same holds for the
    four-parameter copy. *)
Theorem FMpar_threshold_not_pointwise :
  nth 0 (FMpar [3; 6] 0 0 0 1 4.6 1) 0 = farUV_poly 3 /\
  nth 0 (FMpar_SMC [3; 6] 0 0 0 1) 0 = farUV_poly 3 /\
  FM_closed_form 0 0 0 1 4.6 1 3 = 0 /\
  nth 0 (FMpar [3; 6] 0 0 0 1 4.6 1) 0 <> FM_closed_form 0 0 0 1 4.6 1 3.
Proof.
  assert (Hany : any_ge [3; 6] = true).
  { unfold any_ge. cbn [existsb].
    destruct (Rge_dec 3 5.9) as [H3 | _]; [lra | ].
    destruct (Rge_dec 6 5.9) as [_ | H6]; [reflexivity | lra]. }
  assert (Hcode : nth 0 (FMpar [3; 6] 0 0 0 1 4.6 1) 0 = farUV_poly 3).
  { rewrite FMpar_entries, Hany. cbn [map nth]. unfold FMpar_entry. ring. }
  assert (Htext : FM_closed_form 0 0 0 1 4.6 1 3 = 0).
  { unfold FM_closed_form, F_pointwise.
    destruct (Rge_dec 3 5.9) as [H3 | _]; [lra | ring]. }
  split; [exact Hcode | ].
  split; [rewrite FMpar_SMC_eq; replace 1.0 with 1 by lra; exact Hcode | ].
  split; [exact Htext | ].
  rewrite Hcode, Htext. unfold farUV_poly. lra.
Qed.

End Extinction.

(** ** Python strings: [split] and [join] *)

Module PyStr.

Import Ascii String.
Local Open Scope string_scope.

(** [s.split(sep)] for a one-character separator: the pieces between the
    occurrences of [sep], empty pieces kept, never the empty list. *)
Fixpoint split (sep : ascii) (s : string) : list string :=
  match s with
  | EmptyString => [EmptyString]
  | String c s' =>
    if Ascii.eqb c sep then EmptyString :: split sep s'
    else match split sep s' with
         | piece :: rest => String c piece :: rest
         | [] => [String c EmptyString]
         end
  end.

(** [str.join(sep, parts)], that is [sep.join(parts)]. *)
Fixpoint join (sep : string) (parts : list string) : string :=
  match parts with
  | [] => EmptyString
  | [p] => p
  | p :: rest => p ++ sep ++ join sep rest
  end.

(** The slice [parts[0:-1]]: all but the last element, nothing of an empty
    list. *)
Definition slice_0_m1 {A : Type} (parts : list A) : list A :=
  firstn (List.length parts - 1) parts.

(** [parts[-1]] of a list of strings; Python raises on an empty list, which
    [split] never returns. *)
Definition last_piece (parts : list string) : string := last parts EmptyString.

(** [c in s] *)
Fixpoint contains (c : ascii) (s : string) : bool :=
  match s with
  | EmptyString => false
  | String c' s' => Ascii.eqb c' c || contains c s'
  end.

Lemma split_not_nil (sep : ascii) (s : string) : split sep s <> [].
Proof.
  induction s as [| c s IH]; cbn; [discriminate | ].
  destruct (Ascii.eqb c sep); [discriminate | ].
  destruct (split sep s); discriminate.
Qed.

Lemma append_assoc (a b c : string) : (a ++ b) ++ c = a ++ (b ++ c).
Proof. induction a as [| x a IH]; cbn; [ | rewrite IH]; reflexivity. Qed.

Lemma join_cons (sep p : string) (rest : list string) :
  rest <> [] -> join sep (p :: rest) = p ++ sep ++ join sep rest.
Proof. destruct rest; [contradiction | reflexivity]. Qed.

(** Joining the pieces with the separator gives the string back. *)
Lemma join_split (sep : ascii) (s : string) :
  join (String sep EmptyString) (split sep s) = s.
Proof.
  induction s as [| c s IH]; [reflexivity | ].
  cbn [split]. destruct (Ascii.eqb c sep) eqn:E.
  - apply Ascii.eqb_eq in E. subst c.
    rewrite join_cons by apply split_not_nil. rewrite IH. reflexivity.
  - pose proof (split_not_nil sep s) as Hne.
    destruct (split sep s) as [| piece rest]; [contradiction | ].
    destruct rest as [| q rest].
    + cbn in IH |- *. rewrite IH. reflexivity.
    + rewrite join_cons in IH by discriminate.
      rewrite join_cons by discriminate. rewrite <- IH. reflexivity.
Qed.

(** No piece holds the separator. *)
Lemma split_pieces_clean (sep : ascii) (s : string) :
  Forall (fun piece => contains sep piece = false) (split sep s).
Proof.
  induction s as [| c s IH]; cbn [split].
  - constructor; [reflexivity | constructor].
  - destruct (Ascii.eqb c sep) eqn:E.
    + constructor; [reflexivity | exact IH].
    + destruct (split sep s) as [| piece rest];
        [repeat constructor; cbn; rewrite E; reflexivity | ].
      inversion IH as [| ? ? Hp Hrest]; subst.
      constructor; [cbn; rewrite E, Hp; reflexivity | exact Hrest].
Qed.

(** A string that holds the separator splits into two pieces or more. *)
Lemma split_length_ge_2 (sep : ascii) (s : string) :
  contains sep s = true -> (2 <= List.length (split sep s))%nat.
Proof.
  induction s as [| c s IH]; cbn [contains split]; [discriminate | ].
  destruct (Ascii.eqb c sep); cbn [orb].
  - intros _. pose proof (split_not_nil sep s).
    destruct (split sep s); [contradiction | cbn; lia].
  - intros H. specialize (IH H).
    destruct (split sep s); cbn in IH |- *; lia.
Qed.

(** A string without the separator is its own single piece. *)
Lemma split_without_sep (sep : ascii) (s : string) :
  contains sep s = false -> split sep s = [s].
Proof.
  induction s as [| c s IH]; cbn [contains split]; [reflexivity | ].
  destruct (Ascii.eqb c sep); cbn [orb]; [discriminate | ].
  intros H. rewrite (IH H). reflexivity.
Qed.

Lemma contains_app_sep (sep : ascii) (a b : string) :
  contains sep (a ++ String sep b) = true.
Proof.
  induction a as [| c a IH]; cbn.
  - rewrite Ascii.eqb_refl. reflexivity.
  - rewrite IH. apply orb_true_r.
Qed.

Lemma contains_app (c : ascii) (a b : string) :
  contains c (a ++ b) = contains c a || contains c b.
Proof.
  induction a as [| x a IH]; cbn; [reflexivity | ].
  rewrite IH. apply orb_assoc.
Qed.

(** The piece before the first separator. *)
Lemma split_app_sep (sep : ascii) (piece rest : string) :
  contains sep piece = false ->
  split sep (piece ++ String sep rest) = piece :: split sep rest.
Proof.
  induction piece as [| c piece IH]; cbn [contains split String.append].
  - intros _. rewrite Ascii.eqb_refl. reflexivity.
  - destruct (Ascii.eqb c sep); cbn [orb]; [discriminate | ].
    intros H. rewrite (IH H). reflexivity.
Qed.

Lemma join_snoc (sep : string) (init : list string) (p : string) :
  init <> [] -> join sep (init ++ [p])%list = join sep init ++ sep ++ p.
Proof.
  induction init as [| q init IH]; [contradiction | intros _].
  destruct init as [| r init].
  - reflexivity.
  - change ((q :: r :: init) ++ [p])%list with (q :: ((r :: init) ++ [p]))%list.
    rewrite join_cons by (destruct init; discriminate).
    rewrite IH by discriminate.
    rewrite (join_cons sep q (r :: init)) by discriminate.
    rewrite !append_assoc. reflexivity.
Qed.

Lemma slice_0_m1_removelast {A : Type} (l : list A) : slice_0_m1 l = removelast l.
Proof.
  unfold slice_0_m1. rewrite removelast_firstn_len.
  replace (List.length l - 1)%nat with (pred (List.length l)) by lia. reflexivity.
Qed.

End PyStr.

(** ** SpectralDB notebook: the obs_id of a product file name *)

Module SpectralDB.

Import Ascii String PyStr.
Local Open Scope string_scope.

(** [search=str.join('_',filename.split('_')[0:-1])] *)
Definition search_of (filename : string) : string :=
  join "_" (slice_0_m1 (split "_" filename)).

(** The part of [s] before its last [sep]; empty when [s] holds no [sep]. *)
Fixpoint prefix_before_last (sep : ascii) (s : string) : string :=
  match s with
  | EmptyString => EmptyString
  | String c s' =>
    if contains sep s' then String c (prefix_before_last sep s') else EmptyString
  end.

(** The file name of the notebook cell. *)
Definition notebook_filename : string :=
  "jw01039-o005_t001_miri_ch3-shortlongmedium-_x1d.fits".

Lemma prefix_before_last_app (sep : ascii) (a b : string) :
  contains sep b = false -> prefix_before_last sep (a ++ String sep b) = a.
Proof.
  intros Hb. induction a as [| c a IH]; cbn.
  - rewrite Hb. reflexivity.
  - rewrite contains_app_sep, IH. reflexivity.
Qed.

Lemma search_of_notebook_filename :
  search_of notebook_filename = "jw01039-o005_t001_miri_ch3-shortlongmedium-".
Proof. reflexivity. Qed.

(** C10: for a file name with an underscore in it, the string the cell
    builds is the part of the file name before its last underscore, and the
    file name is that string, an underscore and the last piece of the split. *)
Theorem search_strips_last_token (filename : string) :
  contains "_" filename = true ->
  search_of filename = prefix_before_last "_" filename /\
  contains "_" (last_piece (split "_" filename)) = false /\
  search_of filename ++ "_" ++ last_piece (split "_" filename) = filename.
Proof.
  intros Hus.
  pose proof (split_not_nil "_" filename) as Hne.
  pose proof (split_length_ge_2 "_" filename Hus) as Hlen.
  pose proof (split_pieces_clean "_" filename) as Hclean.
  pose proof (join_split "_" filename) as Hjoin.
  unfold search_of, last_piece. rewrite slice_0_m1_removelast.
  pose proof (app_removelast_last EmptyString Hne) as Hsplit.
  set (init := removelast (split "_" filename)) in *.
  set (suffix := last (split "_" filename) EmptyString) in *.
  assert (Hinit : init <> []).
  { intros E. rewrite Hsplit, E in Hlen. cbn in Hlen. lia. }
  assert (Hsuffix : contains "_" suffix = false).
  { rewrite Hsplit in Hclean. apply Forall_app in Hclean.
    destruct Hclean as [_ Hl]. inversion Hl; assumption. }
  assert (Hwhole : join "_" init ++ "_" ++ suffix = filename).
  { rewrite <- (join_snoc "_" init suffix Hinit), <- Hsplit. exact Hjoin. }
  split; [ | split; [exact Hsuffix | exact Hwhole]].
  rewrite <- Hwhole at 1. symmetry.
  apply (prefix_before_last_app "_" (join "_" init) suffix Hsuffix).
Qed.

Lemma search_strips_last_token_witness :
  search_of notebook_filename = prefix_before_last "_" notebook_filename /\
  contains "_" (last_piece (split "_" notebook_filename)) = false /\
  search_of notebook_filename ++ "_" ++ last_piece (split "_" notebook_filename)
    = notebook_filename.
Proof.
  apply (search_strips_last_token notebook_filename). reflexivity.
Defined.

(** Without an underscore the slice is empty and so is the search string. *)
Lemma search_of_without_underscore (filename : string) :
  contains "_" filename = false -> search_of filename = EmptyString.
Proof.
  intros H. unfold search_of. rewrite (split_without_sep _ _ H). reflexivity.
Qed.

End SpectralDB.

(** ** UV spectra notebook: dropping the rows with negative flux *)

Module UVSpectra.

Import Floats Fallible.

(** [a < 0] on one element of a float array. *)
Definition negative (x : float) : bool := (x <? 0)%float.

(** [a >= 0] on one element of a float array. *)
Definition nonnegative (x : float) : bool := (0 <=? x)%float.

(** [np.where(mask)[0]] for a one-dimensional array: the indices, in
    increasing order, where the condition holds.  [pos] is the index of the
    head of the list. *)
Fixpoint where_from {A : Type} (pos : nat) (p : A -> bool) (a : list A) : list nat :=
  match a with
  | [] => []
  | x :: a' => if p x then pos :: where_from (S pos) p a' else where_from (S pos) p a'
  end.

Definition np_where {A : Type} (p : A -> bool) (a : list A) : list nat := where_from 0 p a.

Fixpoint delete_from {A : Type} (pos : nat) (a : list A) (idx : list nat) : list A :=
  match a with
  | [] => []
  | x :: a' =>
    if existsb (Nat.eqb pos) idx then delete_from (S pos) a' idx
    else x :: delete_from (S pos) a' idx
  end.

(** [np.delete(a, idx)] for a one-dimensional array and an array of
    non-negative indices: a copy of [a] without the listed positions; an index
    past the end raises [IndexError], here [None]. *)
Definition np_delete {A : Type} (a : list A) (idx : list nat) : option (list A) :=
  if forallb (fun i => Nat.ltb i (length a)) idx then Some (delete_from 0 a idx) else None.

(** [def changeNaN(wavv,fluxx,wavv1,fluxx1)] *)
Definition changeNaN (wavv fluxx wavv1 fluxx1 : list float)
  : option (list float * list float * list float * list float) :=
  let prob := np_where negative fluxx in
  wavv <- np_delete wavv prob ;;
  fluxx <- np_delete fluxx prob ;;
  wavv1 <- np_delete wavv1 prob ;;
  fluxx1 <- np_delete fluxx1 prob ;;
  let prob2 := np_where negative fluxx1 in
  wavv <- np_delete wavv prob2 ;;
  fluxx <- np_delete fluxx prob2 ;;
  wavv1 <- np_delete wavv1 prob2 ;;
  fluxx1 <- np_delete fluxx1 prob2 ;;
  Some (wavv, fluxx, wavv1, fluxx1).

(** A row of the four arrays: the values they hold at one index. *)
Record Row := mkRow { r_wavv : float; r_fluxx : float; r_wavv1 : float; r_fluxx1 : float }.

Fixpoint rows_of (wavv fluxx wavv1 fluxx1 : list float) : list Row :=
  match wavv, fluxx, wavv1, fluxx1 with
  | a :: wavv, b :: fluxx, c :: wavv1, d :: fluxx1 =>
    mkRow a b c d :: rows_of wavv fluxx wavv1 fluxx1
  | _, _, _, _ => []
  end.

Definition columns_of (rows : list Row)
  : list float * list float * list float * list float :=
  (map r_wavv rows, map r_fluxx rows, map r_wavv1 rows, map r_fluxx1 rows).

(** The rows the code keeps: neither flux compares below zero. *)
Definition kept (r : Row) : bool :=
  negb (negative (r_fluxx r)) && negb (negative (r_fluxx1 r)).

(** The rows the specification names: both fluxes compare at or above zero. *)
Definition both_nonnegative (r : Row) : bool :=
  nonnegative (r_fluxx r) && nonnegative (r_fluxx1 r).

Lemma where_from_bounds {A : Type} (p : A -> bool) (a : list A) (pos : nat) :
  Forall (fun i => pos <= i < pos + length a) (where_from pos p a).
Proof.
  revert pos. induction a as [| x a IH]; intros pos; cbn [where_from length].
  - constructor.
  - assert (Htail : Forall (fun i => pos <= i < pos + S (length a)) (where_from (S pos) p a)).
    { eapply Forall_impl; [ | apply IH]. cbn. intros i Hi. lia. }
    destruct (p x); [constructor; [lia | exact Htail] | exact Htail].
Qed.

Lemma existsb_eqb_below (pos : nat) (idx : list nat) :
  Forall (fun i => pos < i) idx -> existsb (Nat.eqb pos) idx = false.
Proof.
  induction 1 as [| i idx Hi _ IH]; [reflexivity | ].
  cbn. rewrite IH. destruct (Nat.eqb_spec pos i); [lia | reflexivity].
Qed.

Lemma delete_from_skip {A : Type} (a : list A) (pos i : nat) (idx : list nat) :
  i < pos -> delete_from pos a (i :: idx) = delete_from pos a idx.
Proof.
  revert pos. induction a as [| x a IH]; intros pos Hlt; [reflexivity | ].
  cbn [delete_from existsb].
  destruct (Nat.eqb_spec pos i); [lia | ]. cbn [orb].
  rewrite IH by lia. reflexivity.
Qed.

(** Deleting from one column the indices found in another column of the same
    rows keeps the rows where the condition fails, in order. *)
Lemma delete_where_rows {T A B : Type} (col : T -> A) (key : T -> B) (p : B -> bool)
    (rows : list T) (pos : nat) :
  delete_from pos (map col rows) (where_from pos p (map key rows)) =
    map col (filter (fun r => negb (p (key r))) rows).
Proof.
  revert pos. induction rows as [| r rows IH]; intros pos; [reflexivity | ].
  cbn [map where_from filter delete_from].
  destruct (p (key r)); cbn [negb].
  - cbn [existsb]. rewrite Nat.eqb_refl. cbn [orb].
    rewrite delete_from_skip by lia. apply IH.
  - rewrite existsb_eqb_below.
    + cbn [map]. f_equal. apply IH.
    + eapply Forall_impl; [ | apply where_from_bounds]. cbn. intros i Hi. lia.
Qed.

Lemma np_delete_where_rows {T A B : Type} (col : T -> A) (key : T -> B) (p : B -> bool)
    (rows : list T) :
  np_delete (map col rows) (np_where p (map key rows)) =
    Some (map col (filter (fun r => negb (p (key r))) rows)).
Proof.
  unfold np_delete, np_where.
  assert (Hin : forallb (fun i => Nat.ltb i (length (map col rows)))
                        (where_from 0 p (map key rows)) = true).
  { apply forallb_forall. intros i Hi.
    pose proof (where_from_bounds p (map key rows) 0) as Hb.
    rewrite Forall_forall in Hb. specialize (Hb i Hi).
    rewrite !length_map in *. apply Nat.ltb_lt. lia. }
  rewrite Hin, delete_where_rows. reflexivity.
Qed.

Lemma columns_of_rows_of (wavv fluxx wavv1 fluxx1 : list float) :
  length fluxx = length wavv -> length wavv1 = length wavv -> length fluxx1 = length wavv ->
  columns_of (rows_of wavv fluxx wavv1 fluxx1) = (wavv, fluxx, wavv1, fluxx1).
Proof.
  revert fluxx wavv1 fluxx1.
  induction wavv as [| a wavv IH]; intros [| b fluxx] [| c wavv1] [| d fluxx1];
    cbn [length]; intros H1 H2 H3; try discriminate; [reflexivity | ].
  cbn [rows_of]. unfold columns_of in *. cbn [map r_wavv r_fluxx r_wavv1 r_fluxx1].
  specialize (IH fluxx wavv1 fluxx1 ltac:(lia) ltac:(lia) ltac:(lia)).
  injection IH as -> -> -> ->. reflexivity.
Qed.

Lemma filter_filter {A : Type} (p q : A -> bool) (l : list A) :
  filter q (filter p l) = filter (fun a => p a && q a) l.
Proof.
  induction l as [| a l IH]; [reflexivity | ].
  cbn [filter]. destruct (p a); cbn [andb filter]; [destruct (q a) | ]; rewrite ?IH; reflexivity.
Qed.

(** What [changeNaN] returns on the columns of a list of rows. *)
Lemma changeNaN_rows (rows : list Row) :
  changeNaN (map r_wavv rows) (map r_fluxx rows) (map r_wavv1 rows) (map r_fluxx1 rows)
    = Some (columns_of (filter kept rows)).
Proof.
  unfold changeNaN.
  rewrite !(np_delete_where_rows _ r_fluxx negative rows). cbn [bind].
  rewrite !(np_delete_where_rows _ r_fluxx1 negative). cbn [bind].
  rewrite filter_filter. reflexivity.
Qed.

(** For a float that is not NaN, "not below zero" and "at or above zero" are
    one test; NaN fails both comparisons. *)
Lemma not_negative_nonnegative (x : float) :
  is_nan x = false -> negb (negative x) = nonnegative x.
Proof.
  unfold is_nan, negative, nonnegative.
  rewrite FloatAxioms.eqb_spec, ltb_spec, leb_spec.
  change (Prim2SF 0) with (S754_zero false).
  destruct (Prim2SF x) as [s | s | | s m e]; cbn; try (destruct s; reflexivity).
  discriminate.
Qed.

Lemma nan_neither_negative_nor_nonnegative :
  negative nan = false /\ nonnegative nan = false.
Proof. split; reflexivity. Qed.

Lemma kept_both_nonnegative (rows : list Row) :
  Forall (fun r => is_nan (r_fluxx r) = false /\ is_nan (r_fluxx1 r) = false) rows ->
  filter kept rows = filter both_nonnegative rows.
Proof.
  intros Hnan. apply filter_ext_in. intros r Hin.
  rewrite Forall_forall in Hnan. destruct (Hnan r Hin) as [H1 H2].
  unfold kept, both_nonnegative.
  rewrite (not_negative_nonnegative _ H1), (not_negative_nonnegative _ H2). reflexivity.
Qed.

Lemma kept_not_negative (rows : list Row) :
  Forall (fun x => negative x = false) (map r_fluxx (filter kept rows)) /\
  Forall (fun x => negative x = false) (map r_fluxx1 (filter kept rows)).
Proof.
  split; apply Forall_forall; intros x Hx; apply in_map_iff in Hx;
    destruct Hx as [r [<- Hr]]; apply filter_In in Hr; destruct Hr as [_ Hk];
    unfold kept in Hk; apply andb_prop in Hk; destruct Hk as [Ha Hb].
  - destruct (negative (r_fluxx r)); [discriminate | reflexivity].
  - destruct (negative (r_fluxx1 r)); [discriminate | reflexivity].
Qed.

(** C3 as stated fails on a row whose flux is NaN: the row compares neither
    below zero nor at or above it, and [changeNaN] keeps it. *)
Lemma changeNaN_keeps_nan_row :
  changeNaN [1%float] [nan] [1%float] [1%float]
    = Some ([1%float], [nan], [1%float], [1%float]) /\
  columns_of (filter both_nonnegative (rows_of [1%float] [nan] [1%float] [1%float]))
    = ([], [], [], []) /\
  changeNaN [1%float] [nan] [1%float] [1%float]
    <> Some (columns_of (filter both_nonnegative (rows_of [1%float] [nan] [1%float] [1%float]))).
Proof.
  split; [vm_compute; reflexivity | ].
  split; [vm_compute; reflexivity | ].
  vm_compute. discriminate.
Qed.

(** C3, amended: on four arrays of one length [changeNaN] returns four
    arrays of one length, whose rows are the input rows in which neither flux
    compares below zero, in their order; no returned flux is negative; and
    when no input flux is NaN these are the rows with both fluxes [>= 0]. *)
Theorem changeNaN_drops_negative_rows (wavv fluxx wavv1 fluxx1 : list float) :
  length fluxx = length wavv -> length wavv1 = length wavv -> length fluxx1 = length wavv ->
  exists w f w1 f1 : list float,
    changeNaN wavv fluxx wavv1 fluxx1 = Some (w, f, w1, f1) /\
    (w, f, w1, f1) = columns_of (filter kept (rows_of wavv fluxx wavv1 fluxx1)) /\
    length f = length w /\ length w1 = length w /\ length f1 = length w /\
    Forall (fun x => negative x = false) f /\
    Forall (fun x => negative x = false) f1 /\
    (Forall (fun x => is_nan x = false) fluxx -> Forall (fun x => is_nan x = false) fluxx1 ->
     (w, f, w1, f1) = columns_of (filter both_nonnegative (rows_of wavv fluxx wavv1 fluxx1))).
Proof.
  intros H1 H2 H3.
  pose proof (columns_of_rows_of wavv fluxx wavv1 fluxx1 H1 H2 H3) as Hcols.
  set (rows := rows_of wavv fluxx wavv1 fluxx1) in *.
  unfold columns_of in Hcols. injection Hcols as Ew Ef Ew1 Ef1.
  exists (map r_wavv (filter kept rows)), (map r_fluxx (filter kept rows)),
         (map r_wavv1 (filter kept rows)), (map r_fluxx1 (filter kept rows)).
  split.
  { rewrite <- Ew at 1. rewrite <- Ef at 1. rewrite <- Ew1 at 1. rewrite <- Ef1 at 1.
    apply changeNaN_rows. }
  split; [reflexivity | ].
  rewrite !length_map.
  split; [reflexivity | ]. split; [reflexivity | ]. split; [reflexivity | ].
  split; [apply kept_not_negative | ]. split; [apply kept_not_negative | ].
  intros Nf Nf1. change (columns_of (filter kept rows) = columns_of (filter both_nonnegative rows)).
  f_equal. apply kept_both_nonnegative.
  apply Forall_forall. intros r Hr. rewrite Forall_forall in Nf, Nf1.
  split; [apply Nf; rewrite <- Ef | apply Nf1; rewrite <- Ef1]; apply in_map; exact Hr.
Qed.

Lemma changeNaN_drops_negative_rows_witness :
  exists w f w1 f1 : list float,
    changeNaN [1; 2; 3]%float [5; -1; 7]%float [1; 2; 3]%float [-2; 4; 6]%float
      = Some (w, f, w1, f1) /\
    (w, f, w1, f1) = columns_of (filter kept
        (rows_of [1; 2; 3]%float [5; -1; 7]%float [1; 2; 3]%float [-2; 4; 6]%float)) /\
    length f = length w /\ length w1 = length w /\ length f1 = length w /\
    Forall (fun x => negative x = false) f /\
    Forall (fun x => negative x = false) f1 /\
    (Forall (fun x => is_nan x = false) [5; -1; 7]%float ->
     Forall (fun x => is_nan x = false) [-2; 4; 6]%float ->
     (w, f, w1, f1) = columns_of (filter both_nonnegative
        (rows_of [1; 2; 3]%float [5; -1; 7]%float [1; 2; 3]%float [-2; 4; 6]%float))).
Proof.
  apply (changeNaN_drops_negative_rows
           [1; 2; 3]%float [5; -1; 7]%float [1; 2; 3]%float [-2; 4; 6]%float);
    reflexivity.
Defined.

Lemma changeNaN_example :
  changeNaN [1; 2; 3]%float [5; -1; 7]%float [1; 2; 3]%float [-2; 4; 6]%float
    = Some ([3]%float, [7]%float, [3]%float, [6]%float).
Proof. vm_compute. reflexivity. Qed.

End UVSpectra.

(** ** Two-dimensional float arrays *)

Module NDArray.

Import Floats.

(** A two-dimensional array as the list of its rows.  An array without rows
    is taken to have no columns. *)
Definition ndarray2 : Type := list (list float).

Definition ncols (a : ndarray2) : nat :=
  match a with
  | [] => 0
  | row :: _ => length row
  end.

(** [a] has [r] rows of [c] entries each. *)
Definition has_shape (r c : nat) (a : ndarray2) : Prop :=
  length a = r /\ Forall (fun row => length row = c) a.

(** [a[i, j]], or [None] outside the array. *)
Definition getitem (a : ndarray2) (i j : nat) : option float :=
  match nth_error a i with
  | Some row => nth_error row j
  | None => None
  end.

(** [np.zeros((r, c))] *)
Definition np_zeros2 (r c : nat) : ndarray2 := repeat (repeat 0%float c) r.

(** [np.moveaxis(values, 0, 1)] on a two-dimensional array: its transpose. *)
Fixpoint transpose (m : ndarray2) : ndarray2 :=
  match m with
  | [] => []
  | r :: m' =>
    match m' with
    | [] => map (fun x => [x]) r
    | _ :: _ => map (fun p => fst p :: snd p) (combine r (transpose m'))
    end
  end.

(** [np.append(arr, values, axis=0)]: the rows of [values] after those of
    [arr]; the column counts must agree ([ValueError], here [None]). *)
Definition np_append0 (arr values : ndarray2) : option ndarray2 :=
  if Nat.eqb (ncols arr) (ncols values) then Some (arr ++ values) else None.

(** [np.insert(arr, obj, values, axis=0)] for an integer [obj] and a
    two-dimensional [values]: the rows of [values] before row [obj].  An
    index past the end raises [IndexError]; rows of another width do not fit
    (broadcasting is not modelled): [None]. *)
Definition np_insert0 (arr : ndarray2) (obj : nat) (values : ndarray2) : option ndarray2 :=
  if Nat.leb obj (length arr) && Nat.eqb (ncols values) (ncols arr)
  then Some (firstn obj arr ++ values ++ skipn obj arr)
  else None.

(** [np.insert(arr, obj, values, axis=1)] for an integer [obj] and a
    two-dimensional [values]: numpy first moves axis 0 of [values] to axis 1,
    then puts the columns of the result before column [obj]; it needs one
    row of new entries for each row of [arr]. *)
Definition np_insert1 (arr : ndarray2) (obj : nat) (values : ndarray2) : option ndarray2 :=
  let moved := transpose values in
  if Nat.leb obj (ncols arr) && Nat.eqb (length moved) (length arr)
  then Some (map (fun p => firstn obj (fst p) ++ snd p ++ skipn obj (fst p))
                 (combine arr moved))
  else None.

Lemma combine_repeat {A B : Type} (a : A) (b : B) (n : nat) :
  combine (repeat a n) (repeat b n) = repeat (a, b) n.
Proof. induction n as [| n IH]; cbn; [ | rewrite IH]; reflexivity. Qed.

Lemma map_repeat' {A B : Type} (f : A -> B) (a : A) (n : nat) :
  map f (repeat a n) = repeat (f a) n.
Proof. induction n as [| n IH]; cbn; [ | rewrite IH]; reflexivity. Qed.

Lemma transpose_constant (z : float) (c n : nat) :
  transpose (repeat (repeat z c) (S n)) = repeat (repeat z (S n)) c.
Proof.
  induction n as [| n IH].
  - exact (map_repeat' (fun x => [x]) z c).
  - change (repeat (repeat z c) (S (S n)))
      with (repeat z c :: repeat (repeat z c) (S n)).
    cbn [transpose]. change (repeat (repeat z c) (S n))
      with (repeat z c :: repeat (repeat z c) n) at 1.
    cbv iota. rewrite IH, combine_repeat, map_repeat'. reflexivity.
Qed.

(** The transpose of [np.zeros((w, 3*w))] is [np.zeros((3*w, w))]. *)
Lemma transpose_zeros (w : nat) :
  transpose (np_zeros2 w (3 * w)) = np_zeros2 (3 * w) w.
Proof.
  unfold np_zeros2. destruct w as [| w]; [reflexivity | ].
  apply transpose_constant.
Qed.

Lemma nth_error_repeat' {A : Type} (a : A) (n i : nat) :
  nth_error (repeat a n) i = if Nat.ltb i n then Some a else None.
Proof.
  revert i. induction n as [| n IH]; intros [| i]; cbn [repeat nth_error]; try reflexivity.
  rewrite IH. reflexivity.
Qed.

End NDArray.

(** ** GALEX mosaic notebook: the expanded image *)

Module Canvas.

Import Floats Fallible NDArray.

(** The cell that builds [new_image] from the central image
    [images_mbm15[0]]. *)
Definition expand (image0 : ndarray2) : option ndarray2 :=
  let w := length image0 in
  let new_zeros := np_zeros2 w w in
  new_image <- np_append0 image0 new_zeros ;;
  new_image <- np_insert0 new_image 0 new_zeros ;;
  let new_zeros2 := np_zeros2 w (3 * w) in
  new_image <- np_insert1 new_image 0 new_zeros2 ;;
  new_image <- np_insert1 new_image (2 * w) new_zeros2 ;;
  Some new_image.

(** The two arrays the kernel holds after the cell: every numpy call of the
    cell returns a new array, so [images_mbm15[0]] is the array it was. *)
Record CellVars := mkCellVars { images_mbm15_0 : ndarray2; new_image : ndarray2 }.

Definition expand_cell (image0 : ndarray2) : option CellVars :=
  new_image <- expand image0 ;;
  Some (mkCellVars image0 new_image).

(** Row [i], column [j] lies in the central block of a [3w] by [3w] array. *)
Definition central (w i j : nat) : bool :=
  Nat.leb w i && Nat.ltb i (2 * w) && Nat.leb w j && Nat.ltb j (2 * w).

(** A row as the two column insertions leave it: [w] zeros put before
    column 0, then [w] zeros put before column [2w]. *)
Definition insert_twice (w : nat) (row : list float) : list float :=
  firstn (2 * w) (firstn 0 row ++ repeat 0%float w ++ skipn 0 row)
  ++ repeat 0%float w
  ++ skipn (2 * w) (firstn 0 row ++ repeat 0%float w ++ skipn 0 row).

(** A row between [w] zeros on each side. *)
Definition pad_row (w : nat) (row : list float) : list float :=
  repeat 0%float w ++ row ++ repeat 0%float w.

(** A two by two image. *)
Definition tile22 : ndarray2 := [[1; 2]; [3; 4]]%float.

Lemma ncols_of_shape (r c : nat) (a : ndarray2) :
  has_shape r c a -> r <> 0 -> ncols a = c.
Proof.
  intros [Hlen Hrows] Hr. destruct a as [| row a]; [cbn in Hlen; congruence | ].
  inversion Hrows; assumption.
Qed.

Lemma map_combine_repeat {A B C : Type} (f : A -> B -> C) (z : B) (a : list A) (n : nat) :
  length a = n ->
  map (fun p => f (fst p) (snd p)) (combine a (repeat z n)) = map (fun x => f x z) a.
Proof.
  intros <-. induction a as [| x a IH]; cbn; [ | rewrite IH]; reflexivity.
Qed.

Lemma insert_twice_pad (w : nat) (row : list float) :
  length row = w -> insert_twice w row = pad_row w row.
Proof.
  intros Hlen. unfold insert_twice, pad_row. cbn [firstn skipn app].
  assert (Hin : length (repeat 0%float w ++ row) = 2 * w).
  { rewrite length_app, repeat_length. lia. }
  rewrite firstn_all2 by lia. rewrite skipn_all2 by lia.
  rewrite app_nil_r, <- app_assoc. reflexivity.
Qed.

Lemma pad_row_nth (w : nat) (row : list float) (j : nat) :
  length row = w ->
  nth_error (pad_row w row) j =
    if Nat.ltb j w then Some 0%float
    else if Nat.ltb j (2 * w) then nth_error row (j - w)
    else if Nat.ltb j (3 * w) then Some 0%float
    else None.
Proof.
  intros Hlen. unfold pad_row.
  destruct (Nat.ltb_spec j w) as [H1 | H1].
  - rewrite nth_error_app1 by (rewrite repeat_length; lia).
    rewrite nth_error_repeat'. destruct (Nat.ltb_spec j w); [reflexivity | lia].
  - rewrite nth_error_app2 by (rewrite repeat_length; lia). rewrite repeat_length.
    destruct (Nat.ltb_spec j (2 * w)) as [H2 | H2].
    + rewrite nth_error_app1 by lia. reflexivity.
    + rewrite nth_error_app2 by lia. rewrite nth_error_repeat', Hlen.
      destruct (Nat.ltb_spec j (3 * w)), (Nat.ltb_spec (j - w - w) w); (reflexivity || lia).
Qed.

(** The four numpy calls succeed on a square image and leave the image
    between [w] zero rows above and below, every row between [w] zeros on
    each side. *)
Lemma expand_rows (w : nat) (image0 : ndarray2) :
  has_shape w w image0 ->
  expand image0 = Some (map (pad_row w) (np_zeros2 w w ++ image0 ++ np_zeros2 w w)).
Proof.
  intros Hsq. pose proof Hsq as [Hlen Hrows]. unfold expand. rewrite Hlen.
  assert (Hz : has_shape w w (np_zeros2 w w)).
  { split; [apply repeat_length | ].
    apply Forall_forall. intros row Hin. apply repeat_spec in Hin. subst row.
    apply repeat_length. }
  assert (Hnc : ncols image0 = ncols (np_zeros2 w w)).
  { destruct (Nat.eq_dec w 0) as [-> | Hw].
    - destruct image0; [reflexivity | discriminate].
    - rewrite (ncols_of_shape w w image0 Hsq Hw), (ncols_of_shape w w _ Hz Hw). reflexivity. }
  unfold np_append0. rewrite Hnc, Nat.eqb_refl. cbn [bind].
  unfold np_insert0. cbn [Nat.leb firstn skipn app andb].
  assert (Hnc2 : ncols (np_zeros2 w w) = ncols (image0 ++ np_zeros2 w w)).
  { destruct image0 as [| row image0]; [reflexivity | ].
    cbn [app ncols]. rewrite <- Hnc. reflexivity. }
  rewrite Hnc2, Nat.eqb_refl. cbn [bind].
  set (a2 := np_zeros2 w w ++ image0 ++ np_zeros2 w w).
  assert (Hlen2 : length a2 = 3 * w).
  { unfold a2. rewrite !length_app, Hlen. unfold np_zeros2. rewrite repeat_length. lia. }
  assert (Hmoved : np_zeros2 (3 * w) w = repeat (repeat 0%float w) (3 * w)) by reflexivity.
  unfold np_insert1 at 1. rewrite transpose_zeros, Hmoved.
  cbn [Nat.leb andb]. rewrite repeat_length, Hlen2, Nat.eqb_refl.
  cbn [bind].
  rewrite (map_combine_repeat
             (fun row new => firstn 0 row ++ new ++ skipn 0 row)
             (repeat 0%float w) a2 (3 * w) Hlen2).
  set (a3 := map (fun row => firstn 0 row ++ repeat 0%float w ++ skipn 0 row) a2).
  assert (Hlen3 : length a3 = 3 * w) by (unfold a3; rewrite length_map; exact Hlen2).
  assert (Hnc3 : Nat.leb (2 * w) (ncols a3) = true).
  { apply Nat.leb_le. destruct (Nat.eq_dec w 0) as [-> | Hw]; [cbn; lia | ].
    unfold a3, a2, np_zeros2. destruct w as [| w']; [congruence | ].
    cbn [repeat app map ncols firstn skipn length].
    rewrite length_app. cbn [length]. rewrite !repeat_length. lia. }
  unfold np_insert1. rewrite transpose_zeros, Hmoved, Hnc3.
  rewrite repeat_length, Hlen3, Nat.eqb_refl. cbn [andb bind].
  rewrite (map_combine_repeat
             (fun row new => firstn (2 * w) row ++ new ++ skipn (2 * w) row)
             (repeat 0%float w) a3 (3 * w) Hlen3).
  unfold a3. rewrite map_map. f_equal. apply map_ext_in. intros row Hin.
  apply (insert_twice_pad w row).
  assert (Hrows2 : Forall (fun r => length r = w) a2).
  { unfold a2. rewrite !Forall_app. destruct Hz as [_ Hzr]. auto. }
  rewrite Forall_forall in Hrows2. apply Hrows2. exact Hin.
Qed.

Lemma zeros_shape (r c : nat) : has_shape r c (np_zeros2 r c).
Proof.
  split; [apply repeat_length | ].
  apply Forall_forall. intros row Hin. apply repeat_spec in Hin. subst row.
  apply repeat_length.
Qed.

Lemma nth_error_zeros (r c i : nat) :
  i < r -> nth_error (np_zeros2 r c) i = Some (repeat 0%float c).
Proof.
  intros Hi. unfold np_zeros2. rewrite nth_error_repeat'.
  destruct (Nat.ltb_spec i r); [reflexivity | lia].
Qed.

(** C8: on a square [w] by [w] image the cell succeeds; the new array is
    [3w] by [3w]; its entry at row [i], column [j] is the image's entry at
    [(i-w, j-w)] inside the central block (rows and columns [w] to [2w-1])
    and zero everywhere else; and [images_mbm15[0]] is the array it was. *)
Theorem expand_is_centered_zero_padding (w : nat) (image0 : ndarray2) :
  has_shape w w image0 ->
  exists canvas : ndarray2,
    expand_cell image0 = Some (mkCellVars image0 canvas) /\
    has_shape (3 * w) (3 * w) canvas /\
    (forall i j, i < w -> j < w -> getitem canvas (w + i) (w + j) = getitem image0 i j) /\
    (forall i j, i < 3 * w -> j < 3 * w ->
       getitem canvas i j =
         if central w i j then getitem image0 (i - w) (j - w) else Some 0%float).
Proof.
  intros Hsq. pose proof Hsq as [Hlen Hrows].
  set (a2 := np_zeros2 w w ++ image0 ++ np_zeros2 w w).
  assert (Hrows2 : Forall (fun row => length row = w) a2).
  { unfold a2. rewrite !Forall_app. pose proof (zeros_shape w w) as [_ Hz]. auto. }
  assert (Hlen2 : length a2 = 3 * w).
  { unfold a2. rewrite !length_app, Hlen. unfold np_zeros2. rewrite repeat_length. lia. }
  assert (Hentry : forall i j, i < 3 * w -> j < 3 * w ->
            getitem (map (pad_row w) a2) i j =
              if central w i j then getitem image0 (i - w) (j - w) else Some 0%float).
  { intros i j Hi Hj. unfold getitem at 1. rewrite nth_error_map.
    destruct (nth_error a2 i) as [row |] eqn:Hrow;
      [ | apply nth_error_None in Hrow; lia].
    assert (Hw : length row = w).
    { rewrite Forall_forall in Hrows2. apply Hrows2. eapply nth_error_In. exact Hrow. }
    cbn [option_map]. rewrite (pad_row_nth w row j Hw).
    unfold a2 in Hrow. unfold central.
    destruct (Nat.ltb_spec i w) as [Hi1 | Hi1].
    - (* a zero row above the image *)
      rewrite nth_error_app1 in Hrow by (unfold np_zeros2; rewrite repeat_length; lia).
      rewrite nth_error_zeros in Hrow by lia. injection Hrow as <-.
      destruct (Nat.leb_spec w i); [lia | ]. cbn [andb].
      rewrite nth_error_repeat'.
      destruct (Nat.ltb_spec j w), (Nat.ltb_spec j (2 * w)), (Nat.ltb_spec j (3 * w)),
        (Nat.ltb_spec (j - w) w); (reflexivity || lia).
    - rewrite nth_error_app2 in Hrow by (unfold np_zeros2; rewrite repeat_length; lia).
      pose proof (zeros_shape w w) as [Hzl _]. rewrite Hzl in Hrow.
      destruct (Nat.ltb_spec i (2 * w)) as [Hi2 | Hi2].
      + (* a row of the image *)
        rewrite nth_error_app1 in Hrow by lia.
        destruct (Nat.leb_spec w i); [ | lia]. cbn [andb].
        unfold getitem. rewrite Hrow.
        destruct (Nat.ltb_spec j w), (Nat.leb_spec w j); try lia; cbn [andb];
          [reflexivity | ].
        destruct (Nat.ltb_spec j (2 * w)); [reflexivity | ].
        destruct (Nat.ltb_spec j (3 * w)); [reflexivity | lia].
      + (* a zero row below the image *)
        rewrite nth_error_app2 in Hrow by lia.
        rewrite nth_error_zeros in Hrow by lia. injection Hrow as <-.
        destruct (Nat.leb_spec w i); [ | lia]. cbn [andb].
        rewrite nth_error_repeat'.
        destruct (Nat.ltb_spec j w), (Nat.ltb_spec j (2 * w)), (Nat.ltb_spec j (3 * w)),
          (Nat.ltb_spec (j - w) w); (reflexivity || lia). }
  exists (map (pad_row w) a2).
  split; [unfold expand_cell; rewrite (expand_rows w image0 Hsq); reflexivity | ].
  split.
  { split; [rewrite length_map; exact Hlen2 | ].
    apply Forall_map. eapply Forall_impl; [ | exact Hrows2].
    intros row Hw. cbv beta in Hw |- *.
    unfold pad_row. rewrite !length_app, !repeat_length. lia. }
  split; [ | exact Hentry].
  intros i j Hi Hj. rewrite Hentry by lia. unfold central.
  destruct (Nat.leb_spec w (w + i)), (Nat.ltb_spec (w + i) (2 * w)),
    (Nat.leb_spec w (w + j)), (Nat.ltb_spec (w + j) (2 * w)); try lia.
  cbn [andb]. f_equal; lia.
Qed.

Lemma expand_tile22 :
  expand tile22 =
    Some [[0; 0; 0; 0; 0; 0]; [0; 0; 0; 0; 0; 0];
          [0; 0; 1; 2; 0; 0]; [0; 0; 3; 4; 0; 0];
          [0; 0; 0; 0; 0; 0]; [0; 0; 0; 0; 0; 0]]%float.
Proof. vm_compute. reflexivity. Qed.

Lemma expand_is_centered_zero_padding_witness :
  exists canvas : ndarray2,
    expand_cell tile22 = Some (mkCellVars tile22 canvas) /\
    has_shape (3 * 2) (3 * 2) canvas /\
    (forall i j, i < 2 -> j < 2 -> getitem canvas (2 + i) (2 + j) = getitem tile22 i j) /\
    (forall i j, i < 3 * 2 -> j < 3 * 2 ->
       getitem canvas i j =
         if central 2 i j then getitem tile22 (i - 2) (j - 2) else Some 0%float).
Proof.
  apply (expand_is_centered_zero_padding 2 tile22).
  split; [reflexivity | repeat constructor].
Defined.

End Canvas.

(** ** PS1 image notebook: NaN pixels set to zero before display *)

Module PS1.

Import Floats Fallible NDArray.

(** [np.isnan(a)]: the boolean array of [a]'s shape. *)
Definition np_isnan (a : ndarray2) : list (list bool) := map (map is_nan) a.

(** [a[mask] = v] for a boolean [mask]: the entries where the mask holds
    become [v]. *)
Definition setitem_mask (a : ndarray2) (mask : list (list bool)) (v : float) : ndarray2 :=
  map (fun rm : list float * list bool =>
         map (fun xm : float * bool => if snd xm then v else fst xm)
             (combine (fst rm) (snd rm)))
      (combine a mask).

(** The arrays of the kernel, by object identity: a variable such as
    [fits_img] names one of them, and the assignment changes that object. *)
Definition Heap : Type := nat -> option ndarray2.

Definition store (h : Heap) (r : nat) (a : ndarray2) : Heap :=
  fun r' => if Nat.eqb r' r then Some a else h r'.

(** [fits_img[np.isnan(fits_img)] = 0.0], where [fits_img] names object [r]. *)
Definition scrub_nan (r : nat) (h : Heap) : option Heap :=
  match h r with
  | Some fits_img => Some (store h r (setitem_mask fits_img (np_isnan fits_img) 0%float))
  | None => None
  end.

(** The three assignments of the colour cell, on the red, blue and green
    images. *)
Definition scrub_three (red blue green : nat) (h : Heap) : option Heap :=
  h <- scrub_nan red h ;;
  h <- scrub_nan blue h ;;
  scrub_nan green h.

(** One pixel after the assignment. *)
Definition scrubbed (x : float) : float := if is_nan x then 0%float else x.

(** A heap with one image, one of whose pixels is NaN. *)
Definition one_image : Heap :=
  store (fun _ => None) 0 [[1; nan]; [-2; 0]]%float.

Lemma combine_with_map {A B : Type} (f : A -> B) (l : list A) :
  combine l (map f l) = map (fun x => (x, f x)) l.
Proof. induction l as [| x l IH]; cbn; [ | rewrite IH]; reflexivity. Qed.

Lemma setitem_isnan (a : ndarray2) (v : float) :
  setitem_mask a (np_isnan a) v = map (map (fun x => if is_nan x then v else x)) a.
Proof.
  unfold setitem_mask, np_isnan. rewrite combine_with_map, map_map.
  apply map_ext. intros row. cbn [fst snd].
  rewrite combine_with_map, map_map. reflexivity.
Qed.

Lemma getitem_map (f : float -> float) (a : ndarray2) (i j : nat) :
  getitem (map (map f) a) i j = option_map f (getitem a i j).
Proof.
  unfold getitem. rewrite nth_error_map.
  destruct (nth_error a i) as [row |]; cbn [option_map]; [ | reflexivity].
  apply nth_error_map.
Qed.

Lemma scrubbed_not_nan (x : float) : is_nan (scrubbed x) = false.
Proof. unfold scrubbed. destruct (is_nan x) eqn:E; [reflexivity | exact E]. Qed.

(** C9: after [fits_img[np.isnan(fits_img)] = 0.0] the array named
    [fits_img] has its shape, holds no NaN, holds 0.0 wherever it held NaN
    and its former value everywhere else; no other array changes. *)
Theorem scrub_nan_frame (r : nat) (h : Heap) (fits_img : ndarray2) :
  h r = Some fits_img ->
  exists h' after,
    scrub_nan r h = Some h' /\ h' r = Some after /\
    (forall i j, getitem after i j = option_map scrubbed (getitem fits_img i j)) /\
    (forall i j y, getitem after i j = Some y -> is_nan y = false) /\
    (forall i j x, getitem fits_img i j = Some x -> is_nan x = true ->
       getitem after i j = Some 0%float) /\
    (forall i j x, getitem fits_img i j = Some x -> is_nan x = false ->
       getitem after i j = Some x) /\
    (forall r', r' <> r -> h' r' = h r').
Proof.
  intros Hr. unfold scrub_nan. rewrite Hr, setitem_isnan.
  set (after := map (map (fun x => if is_nan x then 0%float else x)) fits_img).
  assert (Hget : forall i j, getitem after i j = option_map scrubbed (getitem fits_img i j)).
  { intros i j. apply (getitem_map scrubbed). }
  exists (store h r after), after.
  split; [reflexivity | ].
  split; [unfold store; rewrite Nat.eqb_refl; reflexivity | ].
  split; [exact Hget | ].
  split.
  { intros i j y. rewrite Hget. destruct (getitem fits_img i j) as [x |]; cbn; [ | discriminate].
    intros [= <-]. apply scrubbed_not_nan. }
  split.
  { intros i j x Hx Hnan. rewrite Hget, Hx. cbn. unfold scrubbed. rewrite Hnan. reflexivity. }
  split.
  { intros i j x Hx Hnan. rewrite Hget, Hx. cbn. unfold scrubbed. rewrite Hnan. reflexivity. }
  intros r' Hne. unfold store. destruct (Nat.eqb_spec r' r); [contradiction | reflexivity].
Qed.

Lemma scrub_nan_frame_witness :
  exists h' after,
    scrub_nan 0 one_image = Some h' /\ h' 0 = Some after /\
    (forall i j, getitem after i j
                 = option_map scrubbed (getitem [[1; nan]; [-2; 0]]%float i j)) /\
    (forall i j y, getitem after i j = Some y -> is_nan y = false) /\
    (forall i j x, getitem [[1; nan]; [-2; 0]]%float i j = Some x -> is_nan x = true ->
       getitem after i j = Some 0%float) /\
    (forall i j x, getitem [[1; nan]; [-2; 0]]%float i j = Some x -> is_nan x = false ->
       getitem after i j = Some x) /\
    (forall r', r' <> 0 -> h' r' = one_image r').
Proof.
  apply (scrub_nan_frame 0 one_image [[1; nan]; [-2; 0]]%float). reflexivity.
Defined.

Lemma scrub_nan_example :
  option_map (fun h => h 0) (scrub_nan 0 one_image) = Some (Some [[1; 0]; [-2; 0]]%float).
Proof. vm_compute. reflexivity. Qed.

(** The three assignments of the colour cell scrub three distinct images and
    nothing else. *)
Lemma scrub_three_frame (red blue green : nat) (h : Heap) (r g b : ndarray2) :
  red <> blue -> red <> green -> blue <> green ->
  h red = Some r -> h blue = Some b -> h green = Some g ->
  exists h',
    scrub_three red blue green h = Some h' /\
    h' red = Some (map (map scrubbed) r) /\
    h' blue = Some (map (map scrubbed) b) /\
    h' green = Some (map (map scrubbed) g) /\
    (forall r', r' <> red -> r' <> blue -> r' <> green -> h' r' = h r').
Proof.
  intros Hrb Hrg Hbg Hr Hb Hg. unfold scrub_three, scrub_nan.
  rewrite Hr. cbn [bind]. unfold store at 1. 
  destruct (Nat.eqb_spec blue red) as [E | _]; [congruence | ].
  rewrite Hb. cbn [bind]. unfold store at 1.
  destruct (Nat.eqb_spec green blue) as [E | _]; [congruence | ].
  unfold store at 1.
  destruct (Nat.eqb_spec green red) as [E | _]; [congruence | ].
  rewrite Hg, !setitem_isnan.
  eexists. split; [reflexivity | ].
  unfold store. rewrite !Nat.eqb_refl.
  destruct (Nat.eqb_spec red green) as [E | _]; [congruence | ].
  destruct (Nat.eqb_spec red blue) as [E | _]; [congruence | ].
  destruct (Nat.eqb_spec blue green) as [E | _]; [congruence | ].
  repeat split.
  intros r' H1 H2 H3.
  destruct (Nat.eqb_spec r' green); [contradiction | ].
  destruct (Nat.eqb_spec r' blue); [contradiction | ].
  destruct (Nat.eqb_spec r' red); [contradiction | reflexivity].
Qed.

End PS1.

(** ** Eclipse candidates notebook: the table of candidate systems *)

Module Candidates.

Import QArith String.
Local Open Scope Q_scope.

(** A row of the catalogue table with the columns the query asks for.  The
    table comes with masked columns: a value that the catalogue does not
    give is masked, [None] here for [qmin], the one column the cell tests. *)
Record System := mkSystem {
  APOGEE : String.string;
  Per : Q; M1 : Q; M2min : Q;
  qmin : option Q;
  RAJ2000 : Q; DEJ2000 : Q
}.

Definition Table : Type := list System.

(** [tbl['qmin'].mask] on one row. *)
Definition mask (r : System) : bool :=
  match qmin r with
  | None => true
  | Some _ => false
  end.

(** The order [tbl.sort('qmin')] arranges the measured rows in: increasing
    [qmin].  Where the masked rows end up is left open. *)
Definition measured_le (r1 r2 : System) : Prop :=
  forall a b : Q, qmin r1 = Some a -> qmin r2 = Some b -> a <= b.

(** The order with the masked values after all others, as a masked array
    sorts. *)
Definition qmin_leb (r1 r2 : System) : bool :=
  match qmin r1, qmin r2 with
  | Some a, Some b => Qle_bool a b
  | _, None => true
  | None, Some _ => false
  end.

Definition qmin_le (r1 r2 : System) : Prop := qmin_leb r1 r2 = true.

(** Both values measured, the first at least the second. *)
Definition measured_ge (r1 r2 : System) : Prop :=
  exists a b : Q, qmin r1 = Some a /\ qmin r2 = Some b /\ b <= a.

Fixpoint insert_by_qmin (r : System) (t : Table) : Table :=
  match t with
  | [] => [r]
  | r' :: t' => if qmin_leb r r' then r :: t else r' :: insert_by_qmin r t'
  end.

(** One sort by [qmin]: insertion sort, masked values last. *)
Definition sort_qmin (t : Table) : Table := fold_right insert_by_qmin [] t.

(** The cell after the query, for a given sort:
    [tbl.sort('qmin'); tbl.reverse(); tbl=tbl[~tbl['qmin'].mask]]. *)
Definition select (sort : Table -> Table) (tbl : Table) : Table :=
  let tbl := sort tbl in
  let tbl := rev tbl in
  filter (fun r => negb (mask r)) tbl.

(** What a sort by [qmin] must do: rearrange the rows so that the measured
    values increase. *)
Definition sorts_by_qmin (sort : Table -> Table) : Prop :=
  forall t, Permutation t (sort t) /\ StronglySorted measured_le (sort t).

(** Three rows of the catalogue, the second without a [qmin]. *)
Definition three_systems : Table :=
  [ mkSystem "2M06181256+3148140" 34.24248 1.51188 0.29579 (Some 0.19564) 94.552351 31.803905;
    mkSystem "2M00000000+0000000" 10 1 0.5 None 0 0;
    mkSystem "2M07282763+2225408" 80.29508 1.91156 0.97309 (Some 0.50906) 112.115125 22.428013 ].

Lemma qmin_leb_total (r1 r2 : System) : qmin_leb r1 r2 = true \/ qmin_leb r2 r1 = true.
Proof.
  unfold qmin_leb. destruct (qmin r1) as [a |], (qmin r2) as [b |]; auto.
  rewrite !Qle_bool_iff.
  destruct (Qlt_le_dec a b) as [H | H]; [left; apply Qlt_le_weak | right]; exact H.
Qed.

Lemma qmin_le_trans (r1 r2 r3 : System) : qmin_le r1 r2 -> qmin_le r2 r3 -> qmin_le r1 r3.
Proof.
  unfold qmin_le, qmin_leb.
  destruct (qmin r1) as [a |], (qmin r2) as [b |], (qmin r3) as [c |];
    try discriminate; try reflexivity.
  rewrite !Qle_bool_iff. apply Qle_trans.
Qed.

Lemma insert_by_qmin_perm (r : System) (t : Table) : Permutation (r :: t) (insert_by_qmin r t).
Proof.
  induction t as [| r' t IH]; cbn [insert_by_qmin]; [reflexivity | ].
  destruct (qmin_leb r r'); [reflexivity | ].
  rewrite perm_swap. apply perm_skip. exact IH.
Qed.

Lemma insert_by_qmin_sorted (r : System) (t : Table) :
  StronglySorted qmin_le t -> StronglySorted qmin_le (insert_by_qmin r t).
Proof.
  induction 1 as [| r' t Hs IH Hall]; cbn [insert_by_qmin].
  - constructor; constructor.
  - destruct (qmin_leb r r') eqn:E.
    + constructor; [constructor; assumption | ].
      constructor; [exact E | ].
      eapply Forall_impl; [ | exact Hall]. intros x Hx. eapply qmin_le_trans; eassumption.
    + constructor; [exact IH | ].
      assert (Hr : qmin_le r' r) by (destruct (qmin_leb_total r r'); [congruence | assumption]).
      eapply Permutation_Forall; [apply insert_by_qmin_perm | ].
      constructor; assumption.
Qed.

Lemma sort_qmin_masked_last (t : Table) :
  Permutation t (sort_qmin t) /\ StronglySorted qmin_le (sort_qmin t).
Proof.
  induction t as [| r t [IHp IHs]]; cbn [sort_qmin fold_right].
  - split; [reflexivity | constructor].
  - split; [ | apply insert_by_qmin_sorted; exact IHs].
    etransitivity; [apply perm_skip; exact IHp | apply insert_by_qmin_perm].
Qed.

Lemma qmin_le_measured (r1 r2 : System) : qmin_le r1 r2 -> measured_le r1 r2.
Proof.
  unfold qmin_le, qmin_leb, measured_le. intros H a b Ha Hb. rewrite Ha, Hb in H.
  apply Qle_bool_iff. exact H.
Qed.

Lemma sorted_weaken {A : Type} (R R' : A -> A -> Prop) (l : list A) :
  (forall x y, R x y -> R' x y) -> StronglySorted R l -> StronglySorted R' l.
Proof.
  intros Himp. induction 1 as [| a l Hs IH Hall]; constructor; [exact IH | ].
  eapply Forall_impl; [ | exact Hall]. intros x. apply Himp.
Qed.

Lemma sort_qmin_sorts : sorts_by_qmin sort_qmin.
Proof.
  intros t. destruct (sort_qmin_masked_last t) as [Hp Hs].
  split; [exact Hp | ]. eapply sorted_weaken; [ | exact Hs]. apply qmin_le_measured.
Qed.

Lemma filter_perm {A : Type} (p : A -> bool) (l l' : list A) :
  Permutation l l' -> Permutation (filter p l) (filter p l').
Proof.
  induction 1 as [| x l l' _ IH | x y l | l l' l'' _ IH1 _ IH2]; cbn [filter].
  - reflexivity.
  - destruct (p x); [apply perm_skip | ]; exact IH.
  - destruct (p x), (p y); try reflexivity. apply perm_swap.
  - etransitivity; eassumption.
Qed.

Lemma sorted_snoc {A : Type} (R : A -> A -> Prop) (l : list A) (a : A) :
  StronglySorted R l -> Forall (fun x => R x a) l -> StronglySorted R (l ++ [a]).
Proof.
  induction 1 as [| b l Hs IH Hall]; intros Ha; cbn [app].
  - constructor; constructor.
  - inversion Ha as [| ? ? Hba Hrest]; subst.
    constructor; [apply IH; exact Hrest | ].
    apply Forall_app. split; [exact Hall | constructor; [exact Hba | constructor]].
Qed.

(** Reversing an ascending list gives a descending one. *)
Lemma sorted_rev {A : Type} (R : A -> A -> Prop) (l : list A) :
  StronglySorted R l -> StronglySorted (fun x y => R y x) (rev l).
Proof.
  induction 1 as [| a l Hs IH Hall]; cbn [rev]; [constructor | ].
  apply sorted_snoc; [exact IH | ].
  apply Forall_rev. exact Hall.
Qed.

(** A filter keeps the order of the rows it keeps. *)
Lemma sorted_filter {A : Type} (R : A -> A -> Prop) (p : A -> bool) (l : list A) :
  StronglySorted R l -> StronglySorted R (filter p l).
Proof.
  induction 1 as [| a l Hs IH Hall]; cbn [filter]; [constructor | ].
  destruct (p a); [ | exact IH].
  constructor; [exact IH | ].
  apply Forall_forall. intros x Hx. apply filter_In in Hx.
  rewrite Forall_forall in Hall. apply Hall. apply Hx.
Qed.

Lemma descending_measured (l : Table) :
  StronglySorted (fun x y => measured_le y x) l ->
  Forall (fun r => mask r = false) l ->
  StronglySorted measured_ge l.
Proof.
  induction 1 as [| a l Hs IH Hall]; intros Hm; [constructor | ].
  inversion Hm as [| ? ? Ha Hl]; subst.
  constructor; [apply IH; exact Hl | ].
  rewrite Forall_forall in Hall, Hl |- *. intros x Hx.
  specialize (Hall x Hx). specialize (Hl x Hx).
  unfold measured_le in Hall. unfold mask in Ha, Hl. unfold measured_ge.
  destruct (qmin a) as [qa |]; [ | discriminate].
  destruct (qmin x) as [qx |]; [ | discriminate].
  exists qa, qx. repeat split. apply Hall; reflexivity.
Qed.

(** C4: whatever sort arranges the rows by [qmin], the table the cell keeps
    holds exactly the rows of the input whose [qmin] is not masked, each as
    often as the input does, in non-increasing order of [qmin]; the sorted and
    reversed table is the input with its measured values in descending
    order, and the filter keeps that order. *)
Theorem select_measured_descending (sort : Table -> Table) (tbl : Table) :
  sorts_by_qmin sort ->
  Permutation (filter (fun r => negb (mask r)) tbl) (select sort tbl) /\
  StronglySorted measured_ge (select sort tbl) /\
  Permutation tbl (rev (sort tbl)) /\
  StronglySorted (fun x y => measured_le y x) (rev (sort tbl)) /\
  StronglySorted (fun x y => measured_le y x) (select sort tbl).
Proof.
  intros Hsort. destruct (Hsort tbl) as [Hperm Hsorted].
  assert (Hrev : Permutation tbl (rev (sort tbl))).
  { etransitivity; [exact Hperm | apply Permutation_rev]. }
  assert (Hdesc : StronglySorted (fun x y => measured_le y x) (rev (sort tbl))).
  { apply sorted_rev. exact Hsorted. }
  assert (Hkeep : StronglySorted (fun x y => measured_le y x) (select sort tbl)).
  { unfold select. apply sorted_filter. exact Hdesc. }
  split; [unfold select; apply filter_perm; exact Hrev | ].
  split; [ | split; [exact Hrev | split; [exact Hdesc | exact Hkeep]]].
  apply descending_measured; [exact Hkeep | ].
  unfold select. apply Forall_forall. intros r Hr. apply filter_In in Hr.
  destruct Hr as [_ Hm]. destruct (mask r); [discriminate | reflexivity].
Qed.

Lemma select_three_systems :
  map APOGEE (select sort_qmin three_systems)
    = ["2M07282763+2225408"; "2M06181256+3148140"]%string.
Proof. vm_compute. reflexivity. Qed.

Lemma select_measured_descending_witness :
  Permutation (filter (fun r => negb (mask r)) three_systems) (select sort_qmin three_systems) /\
  StronglySorted measured_ge (select sort_qmin three_systems) /\
  Permutation three_systems (rev (sort_qmin three_systems)) /\
  StronglySorted (fun x y => measured_le y x) (rev (sort_qmin three_systems)) /\
  StronglySorted (fun x y => measured_le y x) (select sort_qmin three_systems).
Proof.
  apply (select_measured_descending sort_qmin three_systems). exact sort_qmin_sorts.
Defined.

End Candidates.

(** ** The notebook kernel: files, output and exceptions *)

Module Kernel.

Import Ascii String Floats.
Local Open Scope string_scope.

(** A one-dimensional float array, or the zero-dimensional array that
    [np.loadtxt] returns for a file with a single value. *)
Inductive ndarray : Type :=
| Scalar0 (x : float)
| Array1 (a : list float).

Inductive Exn : Type := IndexError | ValueError | FileNotFoundError.

Inductive Outcome (A : Type) : Type :=
| Returned (a : A)
| Raised (e : Exn).
Arguments Returned {A} a.
Arguments Raised {A} e.

(** One argument of a [print] call. *)
Inductive Item : Type :=
| Text (s : string)
| Value (a : ndarray).

(** What a cell can reach besides its own variables: the text files of the
    working directory and what has been printed, one entry for each [print]
    call with the arguments it was given. *)
Record World := mkWorld {
  files : string -> option string;
  stdout : list (list Item)
}.

(** A call in the kernel: from the world before to an outcome and the world
    after. *)
Definition Py (A : Type) : Type := World -> Outcome A * World.

Definition ret {A : Type} (a : A) : Py A := fun w => (Returned a, w).

Definition raise {A : Type} (e : Exn) : Py A := fun w => (Raised e, w).

Definition bind {A B : Type} (m : Py A) (k : A -> Py B) : Py B :=
  fun w =>
    match m w with
    | (Returned a, w') => k a w'
    | (Raised e, w') => (Raised e, w')
    end.

Notation "x <- m ;; k" := (bind m (fun x => k))
  (at level 61, m at next level, right associativity).
Notation "m ;;; k" := (bind m (fun _ => k))
  (at level 61, right associativity).

(** [print(...)] *)
Definition print (args : list Item) : Py unit :=
  fun w => (Returned tt, mkWorld (files w) (stdout w ++ [args])%list).

(** Writing a whole text file, as [open(filename, 'w')] and [write] do, in a
    working directory where every name opens and names a file of its own.
    Names that the operating system refuses, or resolves to one file, are
    the subject of [Disk]. *)
Definition write_text (filename text : string) : Py unit :=
  fun w =>
    (Returned tt,
     mkWorld (fun f => if String.eqb f filename then Some text else files w f) (stdout w)).

(** Reading a whole text file. *)
Definition read_text (filename : string) : Py string :=
  fun w =>
    match files w filename with
    | Some text => (Returned text, w)
    | None => (Raised FileNotFoundError, w)
    end.

(** [a[:3]] and [a[-3:]]; a zero-dimensional array cannot be sliced. *)
Definition first3 (a : ndarray) : Py ndarray :=
  match a with
  | Array1 l => ret (Array1 (firstn 3 l))
  | Scalar0 _ => raise IndexError
  end.

Definition last3 (a : ndarray) : Py ndarray :=
  match a with
  | Array1 l => ret (Array1 (skipn (List.length l - 3) l))
  | Scalar0 _ => raise IndexError
  end.

Definition newline : ascii := "010"%char.

(** The one-character string ['\n']. *)
Definition nl : string := String newline EmptyString.

(** The text of a file with the given lines, each ended by a newline. *)
Fixpoint lines_text (lines : list string) : string :=
  match lines with
  | [] => EmptyString
  | line :: lines => line ++ String newline (lines_text lines)
  end.

Fixpoint parse_lines (parse : string -> option float) (lines : list string)
  : option (list float) :=
  match lines with
  | [] => Some []
  | line :: lines =>
    if String.eqb line EmptyString then parse_lines parse lines
    else match parse line, parse_lines parse lines with
         | Some x, Some xs => Some (x :: xs)
         | _, _ => None
         end
  end.

(** The default [ndmin=0] of [np.loadtxt]: axes of length one are squeezed
    away, so a single value comes back zero-dimensional. *)
Definition squeeze (values : list float) : ndarray :=
  match values with
  | [x] => Scalar0 x
  | _ => Array1 values
  end.

(** A kernel that has written no file and printed nothing. *)
Definition fresh : World := mkWorld (fun _ => None) [].

(** *** An exact text for binary64 values

    ['%.18e'] gives 19 significant digits, enough to tell any two binary64
    values apart, and [float] reads the nearest value back.  The model
    writes the sign, the integer mantissa and the binary exponent of the
    value instead: another text that one value determines and that
    determines it. *)

Definition sign_char (s : bool) : ascii := if s then "-"%char else "+"%char.

Definition fmt_sf (sf : spec_float) : string :=
  match sf with
  | S754_zero s => String (sign_char s) "0"
  | S754_infinity s => String (sign_char s) "inf"
  | S754_nan => "nan"
  | S754_finite s m e =>
    String (sign_char s)
      (DecimalString.NilEmpty.string_of_uint (Pos.to_uint m)
       ++ String "p" (DecimalString.NilEmpty.string_of_int (Z.to_int e)))
  end.

Definition parse_body (s : bool) (body : string) : option spec_float :=
  if String.eqb body "0" then Some (S754_zero s)
  else if String.eqb body "inf" then Some (S754_infinity s)
  else
    match PyStr.split "p" body with
    | [ms; es] =>
      match DecimalString.NilEmpty.uint_of_string ms,
            DecimalString.NilEmpty.int_of_string es with
      | Some u, Some i =>
        match Pos.of_uint u with
        | Npos m => Some (S754_finite s m (Z.of_int i))
        | N0 => None
        end
      | _, _ => None
      end
    | _ => None
    end.

Definition parse_sf (text : string) : option spec_float :=
  if String.eqb text "nan" then Some S754_nan
  else
    match text with
    | EmptyString => None
    | String c body =>
      if Ascii.eqb c "+" then parse_body false body
      else if Ascii.eqb c "-" then parse_body true body
      else None
    end.

Definition fmt_exact (x : float) : string := fmt_sf (Prim2SF x).

Definition parse_exact (text : string) : option float := option_map SF2Prim (parse_sf text).

(** [c] is none of the ten digits. *)
Definition not_digit (c : ascii) : bool :=
  forallb (fun d => negb (Ascii.eqb d c))
    ["0"; "1"; "2"; "3"; "4"; "5"; "6"; "7"; "8"; "9"]%char.

Section TextFiles.

(** [fmt % x], the text [np.savetxt] writes for one value (['%.18e'] by
    default), and [float(token)], the value [np.loadtxt] reads from it. *)
Variable fmt : float -> string.
Variable parse : string -> option float.

(** [np.savetxt(filename, array)] for a one-dimensional array: one value a
    line. *)
Definition np_savetxt (filename : string) (array : list float) : Py unit :=
  write_text filename (lines_text (map fmt array)).

(** [np.loadtxt(filename)] for a file with one value a line: empty lines
    are skipped; a line that is not a number raises [ValueError]. *)
Definition np_loadtxt (filename : string) : Py ndarray :=
  text <- read_text filename ;;
  match parse_lines parse (PyStr.split newline text) with
  | Some values => ret (squeeze values)
  | None => raise ValueError
  end.

(** ['First 3 elements of '+filename+':\n'] and its sibling. *)
Definition first_label (filename : string) : string :=
  "First 3 elements of " ++ filename ++ ":" ++ nl.
Definition last_label (filename : string) : string :=
  "Last 3 elements of " ++ filename ++ ":" ++ nl.

(** [def saveArray(array,filename)]; it returns [None]. *)
Definition saveArray (array : list float) (filename : string) : Py unit :=
  a <- first3 (Array1 array) ;;
  print [Text ("First 3 elements of original array:" ++ nl); Value a] ;;;
  a <- last3 (Array1 array) ;;
  print [Text ("Last 3 elements of original array:" ++ nl); Value a] ;;;
  np_savetxt filename array ;;;
  content <- np_loadtxt filename ;;
  c <- first3 content ;;
  print [Text (first_label filename); Value c] ;;;
  c <- last3 content ;;
  print [Text (last_label filename); Value c; Text nl] ;;;
  ret tt.

(** The array that [saveArray] binds to [content]: what [np.loadtxt] returns
    right after [np.savetxt]. *)
Definition reread (array : list float) (filename : string) : Py ndarray :=
  np_savetxt filename array ;;; np_loadtxt filename.

(** The world after the four prints of a call that runs to its end. *)
Definition saved_world (array : list float) (filename : string) (w : World) : World :=
  mkWorld
    (fun f => if String.eqb f filename then Some (lines_text (map fmt array)) else files w f)
    (stdout w ++
      [[Text ("First 3 elements of original array:" ++ nl); Value (Array1 (firstn 3 array))];
       [Text ("Last 3 elements of original array:" ++ nl);
        Value (Array1 (skipn (List.length array - 3) array))];
       [Text (first_label filename); Value (Array1 (firstn 3 array))];
       [Text (last_label filename); Value (Array1 (skipn (List.length array - 3) array));
        Text nl]])%list.

(** The serialisation is exact on the values of [array]: each is written as
    one non-empty line and read back as itself. *)
Definition exact_on (array : list float) : Prop :=
  forall x, In x array ->
    parse (fmt x) = Some x /\ fmt x <> EmptyString /\ PyStr.contains newline (fmt x) = false.

Lemma split_lines_text (array : list float) :
  exact_on array ->
  PyStr.split newline (lines_text (map fmt array)) = (map fmt array ++ [EmptyString])%list.
Proof.
  induction array as [| x array IH]; intros Hex; [reflexivity | ].
  cbn [map lines_text app]. rewrite PyStr.split_app_sep by (apply Hex; left; reflexivity).
  rewrite IH; [reflexivity | ]. intros y Hy. apply Hex. right. exact Hy.
Qed.

Lemma parse_written_lines (array : list float) :
  exact_on array ->
  parse_lines parse (map fmt array ++ [EmptyString])%list = Some array.
Proof.
  induction array as [| x array IH]; intros Hex; [reflexivity | ].
  cbn [map app parse_lines].
  destruct (Hex x (or_introl eq_refl)) as [Hp [Hne _]].
  destruct (String.eqb_spec (fmt x) EmptyString); [contradiction | ].
  rewrite Hp, IH; [reflexivity | ]. intros y Hy. apply Hex. right. exact Hy.
Qed.

(** What [np.loadtxt] makes of the file [np.savetxt] has just written. *)
Lemma reread_squeezed (array : list float) (filename : string) (w : World) :
  exact_on array ->
  reread array filename w =
    (Returned (squeeze array),
     mkWorld (fun f => if String.eqb f filename then Some (lines_text (map fmt array))
                       else files w f)
             (stdout w)).
Proof.
  intros Hex. unfold reread, np_savetxt, np_loadtxt, bind, write_text, read_text.
  cbn [files stdout]. rewrite String.eqb_refl.
  rewrite (split_lines_text array Hex), (parse_written_lines array Hex). reflexivity.
Qed.

(** An array of any length but one comes back as it was written, and
    [saveArray] runs to its end. *)
Lemma saveArray_round_trip (array : list float) (filename : string) (w : World) :
  exact_on array -> List.length array <> 1 ->
  reread array filename w = (Returned (Array1 array), snd (reread array filename w)) /\
  saveArray array filename w = (Returned tt, saved_world array filename w).
Proof.
  intros Hex Hlen.
  assert (Hsq : squeeze array = Array1 array).
  { destruct array as [| x [| y array]]; [reflexivity | cbn in Hlen; congruence | reflexivity]. }
  split; [rewrite (reread_squeezed array filename w Hex), Hsq; reflexivity | ].
  unfold saveArray, np_savetxt, np_loadtxt, bind, print, last3, first3, ret, write_text,
    read_text.
  cbn [files stdout]. rewrite String.eqb_refl.
  rewrite (split_lines_text array Hex), (parse_written_lines array Hex), Hsq.
  unfold saved_world. cbn [files stdout]. rewrite <- !app_assoc. reflexivity.
Qed.

(** A one-element array comes back zero-dimensional, and [saveArray] raises
    at [content[:3]], after the file is written and two lines are printed. *)
Lemma saveArray_singleton (x : float) (filename : string) (w : World) :
  exact_on [x] ->
  fst (reread [x] filename w) = Returned (Scalar0 x) /\
  fst (saveArray [x] filename w) = Raised IndexError /\
  files (snd (saveArray [x] filename w)) filename = Some (lines_text [fmt x]).
Proof.
  intros Hex.
  split; [rewrite (reread_squeezed [x] filename w Hex); reflexivity | ].
  unfold saveArray, np_savetxt, np_loadtxt, bind, print, last3, first3, ret, raise,
    write_text, read_text.
  cbn [files stdout]. rewrite String.eqb_refl.
  rewrite (split_lines_text [x] Hex), (parse_written_lines [x] Hex).
  cbn [squeeze fst snd files map]. rewrite String.eqb_refl. split; reflexivity.
Qed.

End TextFiles.

Lemma digits_only (c : ascii) (d : Decimal.uint) :
  not_digit c = true ->
  PyStr.contains c (DecimalString.NilEmpty.string_of_uint d) = false.
Proof.
  unfold not_digit. cbn [forallb]. rewrite !andb_true_iff, !negb_true_iff.
  intros (H0 & H1 & H2 & H3 & H4 & H5 & H6 & H7 & H8 & H9 & _).
  induction d as [| d IH | d IH | d IH | d IH | d IH | d IH | d IH | d IH | d IH | d IH];
    cbn [DecimalString.NilEmpty.string_of_uint PyStr.contains]; [reflexivity | ..];
    rewrite IH, orb_false_r; assumption.
Qed.

Lemma digits_and_sign_only (c : ascii) (i : Decimal.int) :
  not_digit c = true -> Ascii.eqb "-" c = false ->
  PyStr.contains c (DecimalString.NilEmpty.string_of_int i) = false.
Proof.
  intros Hd Hm. destruct i as [d | d]; cbn [DecimalString.NilEmpty.string_of_int PyStr.contains].
  - apply digits_only. exact Hd.
  - rewrite Hm. apply digits_only. exact Hd.
Qed.

Lemma eqb_false_by_char (c : ascii) (a b : string) :
  PyStr.contains c a = true -> PyStr.contains c b = false -> String.eqb a b = false.
Proof.
  intros Ha Hb. destruct (String.eqb_spec a b) as [-> | _]; [congruence | reflexivity].
Qed.

Lemma parse_body_fmt (s : bool) (m : positive) (e : Z) :
  parse_body s (DecimalString.NilEmpty.string_of_uint (Pos.to_uint m)
                ++ String "p" (DecimalString.NilEmpty.string_of_int (Z.to_int e)))
    = Some (S754_finite s m e).
Proof.
  unfold parse_body.
  set (ms := DecimalString.NilEmpty.string_of_uint (Pos.to_uint m)).
  set (es := DecimalString.NilEmpty.string_of_int (Z.to_int e)).
  assert (Hp : PyStr.contains "p" (ms ++ String "p" es) = true) by apply PyStr.contains_app_sep.
  rewrite (eqb_false_by_char "p" _ "0" Hp eq_refl), (eqb_false_by_char "p" _ "inf" Hp eq_refl).
  rewrite PyStr.split_app_sep by (apply digits_only; reflexivity).
  rewrite PyStr.split_without_sep by (apply digits_and_sign_only; reflexivity).
  unfold ms, es. rewrite DecimalString.NilEmpty.usu, DecimalString.NilEmpty.isi.
  rewrite DecimalPos.Unsigned.of_to, DecimalZ.of_to. reflexivity.
Qed.

Lemma parse_fmt_sf (sf : spec_float) : parse_sf (fmt_sf sf) = Some sf.
Proof.
  destruct sf as [s | s | | s m e]; try (destruct s; reflexivity); [reflexivity | ].
  unfold parse_sf, fmt_sf.
  destruct s; cbn [sign_char String.eqb Ascii.eqb Bool.eqb]; apply parse_body_fmt.
Qed.

(** The exact text is read back as the value it was written from. *)
Lemma parse_fmt_exact (x : float) : parse_exact (fmt_exact x) = Some x.
Proof.
  unfold parse_exact, fmt_exact. rewrite parse_fmt_sf. cbn [option_map].
  rewrite SF2Prim_Prim2SF. reflexivity.
Qed.

Lemma fmt_exact_line (x : float) :
  fmt_exact x <> EmptyString /\ PyStr.contains newline (fmt_exact x) = false.
Proof.
  unfold fmt_exact. destruct (Prim2SF x) as [s | s | | s m e];
    try (split; [discriminate | destruct s; reflexivity]); [split; [discriminate | reflexivity] | ].
  split; [discriminate | ].
  cbn [fmt_sf PyStr.contains]. rewrite PyStr.contains_app. cbn [PyStr.contains].
  rewrite digits_only by reflexivity.
  rewrite digits_and_sign_only by reflexivity.
  destruct s; reflexivity.
Qed.

Lemma exact_on_all (array : list float) : exact_on fmt_exact parse_exact array.
Proof.
  intros x _. split; [apply parse_fmt_exact | apply fmt_exact_line].
Qed.

(** With the exact text, every array of a length other than one is read
    back as it was written, and [saveArray] returns [None] after its four
    prints. *)
Lemma saveArray_round_trip_exact (array : list float) (filename : string) (w : World) :
  List.length array <> 1 ->
  fst (reread fmt_exact parse_exact array filename w) = Returned (Array1 array) /\
  saveArray fmt_exact parse_exact array filename w
    = (Returned tt, saved_world fmt_exact array filename w).
Proof.
  intros Hlen.
  destruct (saveArray_round_trip fmt_exact parse_exact array filename w
              (exact_on_all array) Hlen) as [Hread Hsave].
  split; [rewrite Hread; reflexivity | exact Hsave].
Qed.

Lemma saveArray_two_values :
  fst (reread fmt_exact parse_exact [1; -2.5]%float "flux_av214_sw.txt" fresh)
    = Returned (Array1 [1; -2.5]%float) /\
  files (snd (reread fmt_exact parse_exact [1; -2.5]%float "flux_av214_sw.txt" fresh))
        "flux_av214_sw.txt"
    = Some ("+4503599627370496p-52" ++ nl ++ "-5629499534213120p-51" ++ nl).
Proof. split; vm_compute; reflexivity. Qed.

(** C5 at a one-element array: the file holds the value, [np.loadtxt] gives
    it back as a zero-dimensional array, which is not the array that was
    saved, and [saveArray] raises [IndexError] at [content[:3]] instead of
    returning. *)
Theorem saveArray_one_value_not_round_trip (x : float) (filename : string) (w : World) :
  fst (reread fmt_exact parse_exact [x] filename w) = Returned (Scalar0 x) /\
  Scalar0 x <> Array1 [x] /\
  fst (saveArray fmt_exact parse_exact [x] filename w) = Raised IndexError /\
  files (snd (saveArray fmt_exact parse_exact [x] filename w)) filename
    = Some (fmt_exact x ++ nl).
Proof.
  destruct (saveArray_singleton fmt_exact parse_exact x filename w (exact_on_all [x]))
    as (Hread & Hraise & Hfile).
  split; [exact Hread | ]. split; [discriminate | ]. split; [exact Hraise | exact Hfile].
Qed.

Lemma saveArray_one_value_example :
  fst (saveArray fmt_exact parse_exact [1]%float "flux_av214_sw.txt" fresh) = Raised IndexError /\
  fst (reread fmt_exact parse_exact [1]%float "flux_av214_sw.txt" fresh)
    = Returned (Scalar0 1%float).
Proof. split; vm_compute; reflexivity. Qed.

(** [saveArray] does reach outside its arguments: it prints and writes. *)
Lemma saveArray_changes_world :
  snd (saveArray fmt_exact parse_exact [1; -2.5]%float "flux_av214_sw.txt" fresh) <> fresh.
Proof.
  intros H. apply (f_equal stdout) in H. vm_compute in H. discriminate.
Qed.

End Kernel.

(** ** Python slices *)

Module PySlice.

Local Open Scope Z_scope.

(** One end of a slice of a sequence of length [n], as [slice.indices]
    gives it for step 1: an index below zero counts from the end, and the
    result is clamped to [0, n]. *)
Definition norm_index (n : nat) (i : Z) : nat :=
  if i <? 0 then Z.to_nat (Z.max 0 (Z.of_nat n + i)) else Nat.min n (Z.to_nat i).

(** [l[start:stop]], an omitted end being [None]: the items from the first
    end up to the second, none when the ends cross.  A slice never raises. *)
Definition slice {A : Type} (l : list A) (start stop : option Z) : list A :=
  let n := length l in
  let lo := match start with None => 0%nat | Some i => norm_index n i end in
  let hi := match stop with None => n | Some j => norm_index n j end in
  firstn (hi - lo) (skipn lo l).

(** [s[start:stop]] on a string. *)
Definition str_slice (s : String.string) (start stop : option Z) : String.string :=
  String.string_of_list_ascii (slice (String.list_ascii_of_string s) start stop).

(** [a[r0:r1, c0:c1]] on a two-dimensional array. *)
Definition slice2 (a : NDArray.ndarray2) (r0 r1 c0 c1 : option Z) : NDArray.ndarray2 :=
  map (fun row => slice row c0 c1) (slice a r0 r1).

Lemma slice_length {A : Type} (l : list A) (start stop : option Z) :
  length (slice l start stop) =
    ((match stop with None => length l | Some j => norm_index (length l) j end)
     - (match start with None => 0 | Some i => norm_index (length l) i end))%nat.
Proof.
  unfold slice. rewrite length_firstn, length_skipn.
  set (hi := match stop with None => length l | Some j => norm_index (length l) j end).
  set (lo := match start with None => 0%nat | Some i => norm_index (length l) i end).
  assert (Hhi : (hi <= length l)%nat).
  { unfold hi. destruct stop as [j |]; [ | lia]. unfold norm_index.
    destruct (j <? 0) eqn:E; [apply Z.ltb_lt in E | ]; lia. }
  lia.
Qed.

Lemma slice_nth {A : Type} (l : list A) (start stop : option Z) (k : nat) :
  (k < length (slice l start stop))%nat ->
  nth_error (slice l start stop) k =
    nth_error l ((match start with None => 0 | Some i => norm_index (length l) i end) + k).
Proof.
  intros Hk. pose proof Hk as Hk'. rewrite slice_length in Hk'. unfold slice.
  rewrite nth_error_firstn.
  set (hi := match stop with None => length l | Some j => norm_index (length l) j end) in *.
  set (lo := match start with None => 0%nat | Some i => norm_index (length l) i end) in *.
  destruct (Nat.ltb_spec k (hi - lo)); [ | lia].
  apply nth_error_skipn.
Qed.

Lemma slice_In {A : Type} (l : list A) (start stop : option Z) (x : A) :
  In x (slice l start stop) -> In x l.
Proof.
  unfold slice. intros Hin.
  set (lo := match start with None => 0%nat | Some i => norm_index (length l) i end) in *.
  set (n := (match stop with None => length l | Some j => norm_index (length l) j end - lo)%nat) in *.
  rewrite <- (firstn_skipn lo l). apply in_or_app. right.
  rewrite <- (firstn_skipn n (skipn lo l)). apply in_or_app. left. exact Hin.
Qed.

End PySlice.

(** ** Slices taken by the notebooks *)

Module Windows.

Import Floats NDArray PySlice.

(** [cut = image[1850:-1850,1850:-1850]], the part of a GALEX image the
    display limits are computed from. *)
Definition cut (image : ndarray2) : ndarray2 :=
  slice2 image (Some 1850%Z) (Some (-1850)%Z) (Some 1850%Z) (Some (-1850)%Z).

(** [wvinv[100:-100]] and [k_lam_V[100:-100]], the samples handed to the
    fit of the SMC curve. *)
Definition fit_window {A : Type} (a : list A) : list A :=
  slice a (Some 100%Z) (Some (-100)%Z).

(** The float that counts up to [n]: 0.0, 1.0, 2.0 and so on. *)
Fixpoint count (n : nat) : float :=
  match n with
  | O => 0%float
  | S n' => (count n' + 1)%float
  end.

(** An image of [h] rows and [w] columns that holds another value at each
    pixel: [4096*i + j] at row [i], column [j]. *)
Definition ramp (h w : nat) : ndarray2 :=
  map (fun i => map (fun j => (4096 * count i + count j)%float) (seq 0 w)) (seq 0 h).

(** Two arrays of 203 samples: 0.0, 1.0, ... and 0.5, 1.5, ... *)
Definition samples_wvinv : list float := map count (seq 0 203).
Definition samples_k_lam_V : list float := map (fun n => (count n + 0.5)%float) (seq 0 203).

Lemma trim_length {A : Type} (m : nat) (l : list A) :
  0 < m ->
  length (slice l (Some (Z.of_nat m)) (Some (- Z.of_nat m)%Z)) = length l - 2 * m.
Proof.
  intros Hm. rewrite slice_length. unfold norm_index.
  destruct (Z.ltb_spec (- Z.of_nat m) 0); destruct (Z.ltb_spec (Z.of_nat m) 0); lia.
Qed.

Lemma trim_nth {A : Type} (m : nat) (l : list A) (k : nat) :
  0 < m ->
  k < length l - 2 * m ->
  nth_error (slice l (Some (Z.of_nat m)) (Some (- Z.of_nat m)%Z)) k = nth_error l (m + k).
Proof.
  intros Hm Hk. rewrite slice_nth by (rewrite trim_length; [exact Hk | exact Hm]).
  f_equal. unfold norm_index.
  destruct (Z.ltb_spec (Z.of_nat m) 0); lia.
Qed.

Lemma nth_error_seq_from (s n i : nat) :
  i < n -> nth_error (seq s n) i = Some (s + i).
Proof.
  revert s i. induction n as [| n IH]; intros s [| i] Hi; try lia.
  - cbn. f_equal. lia.
  - cbn [seq nth_error]. rewrite IH by lia. f_equal. lia.
Qed.

Lemma ramp_shape (h w : nat) : has_shape h w (ramp h w).
Proof.
  unfold ramp. split; [rewrite length_map, length_seq; reflexivity | ].
  apply Forall_forall. intros row Hin. apply in_map_iff in Hin.
  destruct Hin as [i [<- _]]. rewrite length_map, length_seq. reflexivity.
Qed.

Lemma ramp_getitem (h w i j : nat) :
  i < h -> j < w ->
  getitem (ramp h w) i j = Some (4096 * count i + count j)%float.
Proof.
  intros Hi Hj. unfold getitem, ramp.
  rewrite nth_error_map, (nth_error_seq_from 0 h i Hi). cbn [option_map Nat.add].
  rewrite nth_error_map, (nth_error_seq_from 0 w j Hj). reflexivity.
Qed.

(** X3: on an image of [h] rows and [w] columns the cut has [h-3700] rows
    and [w-3700] columns (none when the image is too small: the slice never
    raises), and its entry [(i, j)] is the entry [(1850+i, 1850+j)] of the
    image. *)
Theorem cut_is_inner_window (h w : nat) (image : ndarray2) :
  has_shape h w image ->
  has_shape (h - 3700) (w - 3700) (cut image) /\
  (forall i j : nat, i < h - 3700 -> j < w - 3700 ->
     getitem (cut image) i j = getitem image (1850 + i) (1850 + j)) /\
  (h <= 3700 -> cut image = []).
Proof.
  intros [Hh Hw].
  assert (P1850 : 0 < 1850) by lia.
  assert (Hlen : forall A (l : list A),
            length (slice l (Some 1850%Z) (Some (-1850)%Z)) = length l - 3700)
    by (intros A l; exact (trim_length 1850 l P1850)).
  assert (Hnth : forall A (l : list A) k, k < length l - 3700 ->
            nth_error (slice l (Some 1850%Z) (Some (-1850)%Z)) k = nth_error l (1850 + k))
    by (intros A l k; exact (trim_nth 1850 l k P1850)).
  assert (Hrows : length (cut image) = h - 3700).
  { unfold cut, slice2. rewrite length_map, Hlen, Hh. reflexivity. }
  split; [split; [exact Hrows | ] | split].
  - unfold cut, slice2. apply Forall_forall. intros row Hin.
    apply in_map_iff in Hin. destruct Hin as [row0 [<- Hin0]].
    assert (Hsrc : In row0 image).
    { apply (slice_In _ _ _ _ Hin0). }
    rewrite Forall_forall in Hw. specialize (Hw row0 Hsrc).
    rewrite Hlen, Hw. reflexivity.
  - intros i j Hi Hj. unfold getitem, cut, slice2.
    rewrite nth_error_map.
    rewrite Hnth by (rewrite Hh; exact Hi).
    destruct (nth_error image (1850 + i)) as [row |] eqn:E; [ | reflexivity].
    cbn [option_map].
    assert (Hsrc : In row image) by (apply nth_error_In in E; exact E).
    rewrite Forall_forall in Hw. specialize (Hw row Hsrc).
    apply Hnth. rewrite Hw. exact Hj.
  - intros Hsmall. apply length_zero_iff_nil. rewrite Hrows. lia.
Qed.

Lemma cut_is_inner_window_witness :
  (has_shape (3702 - 3700) (3703 - 3700) (cut (ramp 3702 3703)) /\
   (forall i j : nat, i < 3702 - 3700 -> j < 3703 - 3700 ->
      getitem (cut (ramp 3702 3703)) i j = getitem (ramp 3702 3703) (1850 + i) (1850 + j)) /\
   (3702 <= 3700 -> cut (ramp 3702 3703) = [])) /\
  length (cut (ramp 3702 3703)) = 2 /\
  getitem (cut (ramp 3702 3703)) 1 2 = Some (4096 * count 1851 + count 1852)%float.
Proof.
  pose proof (cut_is_inner_window 3702 3703 (ramp 3702 3703) (ramp_shape 3702 3703))
    as Hcut.
  split; [exact Hcut | ].
  destruct Hcut as [[Hrows _] [Hentry _]].
  split; [rewrite Hrows; reflexivity | ].
  rewrite (Hentry 1 2) by (cbv; lia).
  apply ramp_getitem; lia.
Defined.

(** X4: the two arrays handed to the fit stay paired: trimmed from arrays
    of one length they have one length, [len-200] (none for arrays of at
    most 200 samples), and their entries [k] are the entries [100+k] of the
    arrays they are taken from. *)
Theorem fit_window_keeps_pairs (wvinv k_lam_V : list float) :
  length wvinv = length k_lam_V ->
  length (fit_window wvinv) = length wvinv - 200 /\
  length (fit_window k_lam_V) = length (fit_window wvinv) /\
  forall k : nat, k < length wvinv - 200 ->
    nth_error (fit_window wvinv) k = nth_error wvinv (100 + k) /\
    nth_error (fit_window k_lam_V) k = nth_error k_lam_V (100 + k).
Proof.
  intros Hlen. unfold fit_window.
  assert (P100 : 0 < 100) by lia.
  assert (Hl : forall l : list float,
            length (slice l (Some 100%Z) (Some (-100)%Z)) = length l - 200)
    by (intros l; exact (trim_length 100 l P100)).
  assert (Hn : forall (l : list float) k, k < length l - 200 ->
            nth_error (slice l (Some 100%Z) (Some (-100)%Z)) k = nth_error l (100 + k))
    by (intros l k; exact (trim_nth 100 l k P100)).
  split; [apply Hl | ]. split; [rewrite !Hl, Hlen; reflexivity | ].
  intros k Hlt.
  split; [apply Hn; exact Hlt | apply Hn; rewrite <- Hlen; exact Hlt].
Qed.

Lemma fit_window_keeps_pairs_witness :
  (length (fit_window samples_wvinv) = length samples_wvinv - 200 /\
   length (fit_window samples_k_lam_V) = length (fit_window samples_wvinv) /\
   forall k : nat, k < length samples_wvinv - 200 ->
     nth_error (fit_window samples_wvinv) k = nth_error samples_wvinv (100 + k) /\
     nth_error (fit_window samples_k_lam_V) k = nth_error samples_k_lam_V (100 + k)) /\
  fit_window samples_wvinv = [100; 101; 102]%float /\
  fit_window samples_k_lam_V = [100.5; 101.5; 102.5]%float.
Proof.
  split; [apply (fit_window_keeps_pairs samples_wvinv samples_k_lam_V); reflexivity | ].
  split; vm_compute; reflexivity.
Defined.

End Windows.

(** ** GALEX mosaic notebook: the name of the unzipped file *)

Module Gunzip.

Import String PySlice.
Local Open Scope string_scope.

(** [filename[i][:-3]], the name opened after [gunzip filename[i]]. *)
Definition unzipped_name (filename : string) : string :=
  str_slice filename None (Some (-3)%Z).

Lemma list_ascii_app (a b : string) :
  list_ascii_of_string (a ++ b)
  = (list_ascii_of_string a ++ list_ascii_of_string b)%list.
Proof.
  induction a as [| c a IH]; [reflexivity | ].
  cbn [append list_ascii_of_string app]. rewrite IH. reflexivity.
Qed.

Lemma list_ascii_length (s : string) :
  List.length (list_ascii_of_string s) = length s.
Proof.
  induction s as [| c s IH]; [reflexivity | ].
  cbn [list_ascii_of_string length List.length]. rewrite IH. reflexivity.
Qed.

(** X5: the name opened is the name without its last three characters,
    whatever they are: for [base + ".gz"] it is [base], the file [gunzip]
    leaves; a name of at most three characters gives the empty name. *)
Theorem unzipped_name_strips_three (base ext short : string) :
  length ext = 3 ->
  length short <= 3 ->
  unzipped_name (base ++ ext) = base /\
  unzipped_name short = EmptyString.
Proof.
  intros Hext Hshort. split.
  - unfold unzipped_name, str_slice, slice.
    rewrite list_ascii_app, length_app, !list_ascii_length, Hext.
    unfold norm_index. cbn [Z.ltb Z.compare].
    replace (Z.to_nat (Z.max 0 (Z.of_nat (length base + 3) + -3)))
      with (length base) by lia.
    cbn [skipn]. rewrite Nat.sub_0_r, <- list_ascii_length.
    rewrite firstn_app, Nat.sub_diag, firstn_all. cbn [firstn].
    rewrite app_nil_r. apply string_of_list_ascii_of_string.
  - unfold unzipped_name, str_slice, slice.
    rewrite list_ascii_length. unfold norm_index. cbn [Z.ltb Z.compare].
    replace (Z.to_nat (Z.max 0 (Z.of_nat (length short) + -3))) with 0 by lia.
    reflexivity.
Qed.

Lemma unzipped_name_strips_three_witness :
  unzipped_name ("tile-nd-int.fits" ++ ".gz") = "tile-nd-int.fits" /\
  unzipped_name "gz" = EmptyString.
Proof.
  apply (unzipped_name_strips_three "tile-nd-int.fits" ".gz" "gz").
  - reflexivity.
  - cbn. lia.
Defined.

End Gunzip.

(** ** GALEX mosaic notebook: the expanded image of an image that is not square *)

Module CanvasShape.

Import Floats Fallible NDArray Canvas.

(** The smallest image that is not square. *)
Definition tile12 : ndarray2 := [[1; 2]]%float.

(** X6: the cell sizes its blocks of zeros from the number of rows alone, so
    on an image with rows and with another number of columns than rows the
    first [np.append] is given blocks that do not fit and raises: no
    expanded image is built. *)
Theorem expand_rejects_non_square (h w : nat) (image0 : ndarray2) :
  has_shape h w image0 -> h <> 0 -> h <> w -> expand image0 = None.
Proof.
  intros [Hh Hw] Hpos Hne. unfold expand. rewrite Hh.
  assert (Happ : np_append0 image0 (np_zeros2 h h) = None).
  { unfold np_append0.
    destruct image0 as [| row rest]; [cbn in Hh; congruence | ].
    destruct h as [| h']; [congruence | ].
    assert (Hrow : length row = w) by (inversion Hw; assumption).
    unfold np_zeros2.
    change (repeat (repeat 0%float (S h')) (S h'))
      with (repeat 0%float (S h') :: repeat (repeat 0%float (S h')) h').
    cbv [ncols]. rewrite repeat_length, Hrow.
    destruct (Nat.eqb_spec w (S h')); [congruence | reflexivity]. }
  rewrite Happ. reflexivity.
Qed.

Lemma expand_rejects_non_square_witness : expand tile12 = None.
Proof.
  apply (expand_rejects_non_square 1 2 tile12).
  - split; [reflexivity | repeat constructor].
  - discriminate.
  - discriminate.
Defined.

End CanvasShape.

(** ** UV spectra notebook: the flux filter at its edges *)

Module FluxFilter.

Import Floats Fallible UVSpectra.

Lemma where_from_none {A : Type} (p : A -> bool) (a : list A) (pos : nat) :
  Forall (fun x => p x = false) a -> where_from pos p a = [].
Proof.
  intros Hall. revert pos. induction Hall as [| x a Hx _ IH]; intros pos; [reflexivity | ].
  cbn [where_from]. rewrite Hx. apply IH.
Qed.

Lemma delete_from_nothing {A : Type} (a : list A) (pos : nat) : delete_from pos a [] = a.
Proof.
  revert pos. induction a as [| x a IH]; intros pos; [reflexivity | ].
  cbn [delete_from existsb]. rewrite IH. reflexivity.
Qed.

Lemma np_delete_nothing {A : Type} (a : list A) : np_delete a [] = Some a.
Proof. unfold np_delete. cbn [forallb]. rewrite delete_from_nothing. reflexivity. Qed.

Lemma where_from_In {A : Type} (p : A -> bool) (a : list A) (pos i : nat) (x : A) :
  nth_error a i = Some x -> p x = true -> In (pos + i) (where_from pos p a).
Proof.
  revert pos i. induction a as [| y a IH]; intros pos [| i] Hnth Hp; cbn in Hnth;
    try discriminate.
  - injection Hnth as ->. cbn [where_from]. rewrite Hp, Nat.add_0_r. left. reflexivity.
  - cbn [where_from]. specialize (IH (S pos) i Hnth Hp).
    rewrite Nat.add_succ_comm in IH. destruct (p y); [right | ]; exact IH.
Qed.

Lemma np_delete_past_end {A : Type} (a : list A) (idx : list nat) (i : nat) :
  In i idx -> length a <= i -> np_delete a idx = None.
Proof.
  intros Hin Hlen. unfold np_delete.
  destruct (forallb (fun i => Nat.ltb i (length a)) idx) eqn:E; [ | reflexivity].
  rewrite forallb_forall in E. specialize (E i Hin). apply Nat.ltb_lt in E. lia.
Qed.

Lemma filter_idempotent {A : Type} (p : A -> bool) (l : list A) :
  filter p (filter p l) = filter p l.
Proof.
  induction l as [| a l IH]; [reflexivity | ].
  cbn [filter]. destruct (p a) eqn:E; [cbn [filter]; rewrite E, IH | rewrite IH]; reflexivity.
Qed.

(** X7: filtering twice is filtering once: on four arrays of one length
    [changeNaN] returns arrays that it returns unchanged when it is given
    them again. *)
Theorem changeNaN_idempotent (wavv fluxx wavv1 fluxx1 : list float) :
  length fluxx = length wavv -> length wavv1 = length wavv -> length fluxx1 = length wavv ->
  exists w f w1 f1 : list float,
    changeNaN wavv fluxx wavv1 fluxx1 = Some (w, f, w1, f1) /\
    changeNaN w f w1 f1 = Some (w, f, w1, f1).
Proof.
  intros H1 H2 H3.
  pose proof (columns_of_rows_of wavv fluxx wavv1 fluxx1 H1 H2 H3) as Hcols.
  set (rows := rows_of wavv fluxx wavv1 fluxx1) in *.
  unfold columns_of in Hcols. injection Hcols as Ew Ef Ew1 Ef1.
  exists (map r_wavv (filter kept rows)), (map r_fluxx (filter kept rows)),
         (map r_wavv1 (filter kept rows)), (map r_fluxx1 (filter kept rows)).
  split.
  - rewrite <- Ew at 1. rewrite <- Ef at 1. rewrite <- Ew1 at 1. rewrite <- Ef1 at 1.
    apply changeNaN_rows.
  - rewrite changeNaN_rows, filter_idempotent. reflexivity.
Qed.

Lemma changeNaN_idempotent_witness :
  exists w f w1 f1 : list float,
    changeNaN [1; 2; 3]%float [5; -1; 7]%float [1; 2; 3]%float [-2; 4; 6]%float
      = Some (w, f, w1, f1) /\
    changeNaN w f w1 f1 = Some (w, f, w1, f1).
Proof.
  apply (changeNaN_idempotent
           [1; 2; 3]%float [5; -1; 7]%float [1; 2; 3]%float [-2; 4; 6]%float);
    reflexivity.
Defined.

(** X8: when neither flux array has an element below zero, [changeNaN]
    returns the four arrays as they are, whatever their lengths. *)
Theorem changeNaN_without_negative_flux (wavv fluxx wavv1 fluxx1 : list float) :
  Forall (fun x => negative x = false) fluxx ->
  Forall (fun x => negative x = false) fluxx1 ->
  changeNaN wavv fluxx wavv1 fluxx1 = Some (wavv, fluxx, wavv1, fluxx1).
Proof.
  intros Hf Hf1. unfold changeNaN, np_where.
  rewrite (where_from_none negative fluxx 0 Hf), !np_delete_nothing. cbn [bind].
  rewrite (where_from_none negative fluxx1 0 Hf1), !np_delete_nothing. reflexivity.
Qed.

Lemma changeNaN_without_negative_flux_witness :
  changeNaN [1; 2]%float [5; nan]%float [3]%float [0]%float
    = Some ([1; 2]%float, [5; nan]%float, [3]%float, [0]%float).
Proof.
  apply (changeNaN_without_negative_flux [1; 2]%float [5; nan]%float [3]%float [0]%float);
    repeat constructor.
Defined.

(** X9: when the first flux array has an element below zero at an index
    that one of the other three arrays does not reach, [np.delete] is given
    an index past the end of that array and [changeNaN] raises. *)
Theorem changeNaN_raises_on_short_array
    (wavv fluxx wavv1 fluxx1 : list float) (i : nat) (x : float) :
  nth_error fluxx i = Some x -> negative x = true ->
  length wavv <= i \/ length wavv1 <= i \/ length fluxx1 <= i ->
  changeNaN wavv fluxx wavv1 fluxx1 = None.
Proof.
  intros Hnth Hneg Hshort.
  pose proof (where_from_In negative fluxx 0 i x Hnth Hneg) as Hin. cbn [Nat.add] in Hin.
  unfold changeNaN. fold (np_where negative fluxx) in Hin.
  destruct Hshort as [Hs | [Hs | Hs]].
  - rewrite (np_delete_past_end wavv _ i Hin Hs). reflexivity.
  - rewrite (np_delete_past_end wavv1 _ i Hin Hs).
    destruct (np_delete wavv _); [ | reflexivity]. cbn [bind].
    destruct (np_delete fluxx _); reflexivity.
  - rewrite (np_delete_past_end fluxx1 _ i Hin Hs).
    destruct (np_delete wavv _); [ | reflexivity]. cbn [bind].
    destruct (np_delete fluxx _); [ | reflexivity]. cbn [bind].
    destruct (np_delete wavv1 _); reflexivity.
Qed.

Lemma changeNaN_raises_on_short_array_witness :
  changeNaN [1]%float [5; -1]%float [1; 2]%float [4; 6]%float = None.
Proof.
  apply (changeNaN_raises_on_short_array
           [1]%float [5; -1]%float [1; 2]%float [4; 6]%float 1 (-1)%float).
  - reflexivity.
  - reflexivity.
  - left. cbn. lia.
Defined.

End FluxFilter.

(** ** UV spectra notebook: the files that [saveArray] leaves *)

Module Disk.

Import Ascii String Floats.
Import Kernel(ndarray, Scalar0, Array1, Item, Text, Value, lines_text, parse_lines, squeeze,
              newline, nl, first_label, last_label, exact_on).
Local Open Scope string_scope.

(** A file of the machine, as the operating system tells files apart: two
    names that reach one file, such as [a.txt] and [./a.txt], have one
    path. *)
Definition Path : Type := string.

(** [OSError] stands for the error [open] raises when it refuses a name:
    [FileNotFoundError] for a missing directory or file, [PermissionError],
    [IsADirectoryError]. *)
Inductive Exn : Type := IndexError | ValueError | OSError.

Inductive Outcome (A : Type) : Type :=
| Returned (a : A)
| Raised (e : Exn).
Arguments Returned {A} a.
Arguments Raised {A} e.

(** What a cell can reach besides its own variables.  [open_w name] is the
    file that opening [name] for writing reaches and [open_r name] the file
    that opening it for reading reaches, [None] when the operating system
    refuses; [files] holds the text of each file that exists. *)
Record World := mkWorld {
  open_w : string -> option Path;
  open_r : string -> option Path;
  files : Path -> option string;
  stdout : list (list Item)
}.

Definition Py (A : Type) : Type := World -> Outcome A * World.

Definition ret {A : Type} (a : A) : Py A := fun w => (Returned a, w).

Definition raise {A : Type} (e : Exn) : Py A := fun w => (Raised e, w).

Definition bind {A B : Type} (m : Py A) (k : A -> Py B) : Py B :=
  fun w =>
    match m w with
    | (Returned a, w') => k a w'
    | (Raised e, w') => (Raised e, w')
    end.

Notation "x <- m ;; k" := (bind m (fun x => k))
  (at level 61, m at next level, right associativity).
Notation "m ;;; k" := (bind m (fun _ => k))
  (at level 61, right associativity).

(** [print(...)] *)
Definition print (args : list Item) : Py unit :=
  fun w => (Returned tt, mkWorld (open_w w) (open_r w) (files w) (stdout w ++ [args])%list).

(** Opening [filename] for writing and writing [text]: the file is created
    or replaced; a name that cannot be opened raises and writes nothing. *)
Definition write_text (filename text : string) : Py unit :=
  fun w =>
    match open_w w filename with
    | Some p =>
      (Returned tt,
       mkWorld (open_w w) (open_r w)
               (fun q => if String.eqb q p then Some text else files w q) (stdout w))
    | None => (Raised OSError, w)
    end.

(** Opening [filename] for reading and reading it whole. *)
Definition read_text (filename : string) : Py string :=
  fun w =>
    match open_r w filename with
    | Some p =>
      match files w p with
      | Some text => (Returned text, w)
      | None => (Raised OSError, w)
      end
    | None => (Raised OSError, w)
    end.

(** [a[:3]] and [a[-3:]]; a zero-dimensional array cannot be sliced. *)
Definition first3 (a : ndarray) : Py ndarray :=
  match a with
  | Array1 l => ret (Array1 (firstn 3 l))
  | Scalar0 _ => raise IndexError
  end.

Definition last3 (a : ndarray) : Py ndarray :=
  match a with
  | Array1 l => ret (Array1 (skipn (List.length l - 3) l))
  | Scalar0 _ => raise IndexError
  end.

(** [for i in idx: s = body(i, s)] *)
Fixpoint for_each {S : Type} (idx : list nat) (body : nat -> S -> Py S) (s : S) : Py S :=
  match idx with
  | [] => ret s
  | i :: idx => s' <- body i s ;; for_each idx body s'
  end.

(** The text ['%.18e'] gives for the two values 1.0 and -2.5, and the value
    [float] reads from each of these texts; this table has no other
    entry. *)
Definition fmt_two_values (x : float) : string :=
  if (x =? 1)%float then "1.000000000000000000e+00"
  else if (x =? -2.5)%float then "-2.500000000000000000e+00"
  else "nan".

Definition float_two_values (token : string) : option float :=
  if String.eqb token "1.000000000000000000e+00" then Some 1%float
  else if String.eqb token "-2.500000000000000000e+00" then Some (-2.5)%float
  else None.

(** A working directory in which every name can be opened and is its own
    path, and that holds no file yet. *)
Definition empty_directory : World :=
  mkWorld (fun name => Some name) (fun name => Some name) (fun _ => None) [].

Section TextFiles.

(** [fmt % x], the text [np.savetxt] writes for one value (['%.18e'] by
    default), and [float(token)], the value [np.loadtxt] reads from it. *)
Variable fmt : float -> string.
Variable parse : string -> option float.

(** [np.savetxt(filename, array)] for a one-dimensional array: one value a
    line. *)
Definition np_savetxt (filename : string) (array : list float) : Py unit :=
  write_text filename (lines_text (map fmt array)).

(** [np.loadtxt(filename)] for a file with one value a line: empty lines
    are skipped; a line that is not a number raises [ValueError]. *)
Definition np_loadtxt (filename : string) : Py ndarray :=
  text <- read_text filename ;;
  match parse_lines parse (PyStr.split newline text) with
  | Some values => ret (squeeze values)
  | None => raise ValueError
  end.

(** [def saveArray(array,filename)]; it returns [None]. *)
Definition saveArray (array : list float) (filename : string) : Py unit :=
  a <- first3 (Array1 array) ;;
  print [Text ("First 3 elements of original array:" ++ nl); Value a] ;;;
  a <- last3 (Array1 array) ;;
  print [Text ("Last 3 elements of original array:" ++ nl); Value a] ;;;
  np_savetxt filename array ;;;
  content <- np_loadtxt filename ;;
  c <- first3 content ;;
  print [Text (first_label filename); Value c] ;;;
  c <- last3 content ;;
  print [Text (last_label filename); Value c; Text nl] ;;;
  ret tt.

(** [for i in range(len(arrays)): saveArray(arrays[i],filenames[i])]:
    each subscript raises [IndexError] past the end of its list. *)
Definition save_all (arrays : list (list float)) (filenames : list string) : Py unit :=
  for_each (seq 0 (List.length arrays))
    (fun i _ =>
       match nth_error arrays i with
       | None => raise IndexError
       | Some array =>
         match nth_error filenames i with
         | None => raise IndexError
         | Some filename => saveArray array filename
         end
       end)
    tt.

(** The world after a call that runs to its end and writes the file [p]. *)
Definition saved_world (array : list float) (filename : string) (p : Path) (w : World)
  : World :=
  mkWorld (open_w w) (open_r w)
    (fun q => if String.eqb q p then Some (lines_text (map fmt array)) else files w q)
    (stdout w ++
      [[Text ("First 3 elements of original array:" ++ nl); Value (Array1 (firstn 3 array))];
       [Text ("Last 3 elements of original array:" ++ nl);
        Value (Array1 (skipn (List.length array - 3) array))];
       [Text (first_label filename); Value (Array1 (firstn 3 array))];
       [Text (last_label filename); Value (Array1 (skipn (List.length array - 3) array));
        Text nl]])%list.

(** The world after the two prints that come before the file is opened. *)
Definition printed_world (array : list float) (w : World) : World :=
  mkWorld (open_w w) (open_r w) (files w)
    ((stdout w ++
       [[Text ("First 3 elements of original array:" ++ nl);
         Value (Array1 (firstn 3 array))]]) ++
     [[Text ("Last 3 elements of original array:" ++ nl);
       Value (Array1 (skipn (List.length array - 3) array))]])%list.

Lemma for_each_shift {S : Type} (body : nat -> S -> Py S) (n s : nat) (st : S) (w : World) :
  for_each (seq (Datatypes.S s) n) body st w
  = for_each (seq s n) (fun i => body (Datatypes.S i)) st w.
Proof.
  revert s st w. induction n as [| n IH]; intros s st w; [reflexivity | ].
  cbn [seq for_each]. unfold bind.
  destruct (body (Datatypes.S s) st w) as [[st' | e] w']; [apply IH | reflexivity].
Qed.

Lemma save_all_cons (array : list float) (arrays : list (list float))
    (filename : string) (filenames : list string) (w : World) :
  save_all (array :: arrays) (filename :: filenames) w
  = (saveArray array filename ;;; save_all arrays filenames) w.
Proof.
  unfold save_all. cbn [List.length seq for_each nth_error]. unfold bind.
  destruct (saveArray array filename w) as [[[] | e] w']; [ | reflexivity].
  rewrite for_each_shift. reflexivity.
Qed.

(** A name that cannot be opened for writing: the call raises after its
    first two prints and no file changes. *)
Lemma saveArray_refused (array : list float) (filename : string) (w : World) :
  open_w w filename = None ->
  saveArray array filename w = (Raised OSError, printed_world array w).
Proof.
  intros Hw. unfold saveArray, np_savetxt, bind, print, last3, first3, ret, write_text.
  cbn [open_w open_r files stdout]. rewrite Hw. reflexivity.
Qed.

(** The files after a call whose name opens for writing, whatever happens
    after the file is written. *)
Lemma saveArray_files (array : list float) (filename : string) (p : Path) (w : World)
    (q : Path) :
  open_w w filename = Some p ->
  files (snd (saveArray array filename w)) q
  = if String.eqb q p then Some (lines_text (map fmt array)) else files w q.
Proof.
  intros Hw. unfold saveArray, np_savetxt, np_loadtxt, bind, print, last3, first3, ret, raise,
    write_text, read_text.
  cbn [open_w open_r files stdout]. rewrite Hw. cbn [open_w open_r files stdout].
  destruct (open_r w filename) as [r |]; [ | reflexivity].
  destruct (String.eqb r p); [ | destruct (files w r); [ | reflexivity]];
    (destruct (parse_lines parse _) as [values |]; [ | reflexivity]);
    destruct (squeeze values); reflexivity.
Qed.

(** An array of any length but one, under a name that opens for writing
    and for reading at one file: the call runs to its end. *)
Lemma saveArray_returns (array : list float) (filename : string) (p : Path) (w : World) :
  exact_on fmt parse array -> List.length array <> 1 ->
  open_w w filename = Some p -> open_r w filename = Some p ->
  saveArray array filename w = (Returned tt, saved_world array filename p w).
Proof.
  intros Hex Hlen Hw Hr.
  assert (Hsq : squeeze array = Array1 array).
  { destruct array as [| x [| y array]]; [reflexivity | cbn in Hlen; congruence | reflexivity]. }
  unfold saveArray, np_savetxt, np_loadtxt, bind, print, last3, first3, ret, write_text,
    read_text.
  cbn [open_w open_r files stdout]. rewrite Hw. cbn [open_w open_r files stdout].
  rewrite Hr, String.eqb_refl.
  rewrite (Kernel.split_lines_text fmt parse array Hex),
    (Kernel.parse_written_lines fmt parse array Hex), Hsq.
  unfold saved_world. cbn [open_w open_r files stdout]. rewrite <- !app_assoc. reflexivity.
Qed.

(** A one-element array under such a name: the file is written and the
    call raises at [content[:3]]. *)
Lemma saveArray_one_value (x : float) (filename : string) (p : Path) (w : World) :
  exact_on fmt parse [x] ->
  open_w w filename = Some p -> open_r w filename = Some p ->
  fst (saveArray [x] filename w) = Raised IndexError.
Proof.
  intros Hex Hw Hr.
  unfold saveArray, np_savetxt, np_loadtxt, bind, print, last3, first3, ret, raise,
    write_text, read_text.
  cbn [open_w open_r files stdout]. rewrite Hw. cbn [open_w open_r files stdout].
  rewrite Hr, String.eqb_refl.
  rewrite (Kernel.split_lines_text fmt parse [x] Hex),
    (Kernel.parse_written_lines fmt parse [x] Hex).
  reflexivity.
Qed.

Lemma saveArray_keeps_names (array : list float) (filename : string) (w : World) :
  open_w (snd (saveArray array filename w)) = open_w w /\
  open_r (snd (saveArray array filename w)) = open_r w.
Proof.
  unfold saveArray, np_savetxt, np_loadtxt, bind, print, last3, first3, ret, raise,
    write_text, read_text.
  cbn [open_w open_r files stdout].
  destruct (open_w w filename) as [p |]; [ | split; reflexivity].
  cbn [open_w open_r files stdout].
  destruct (open_r w filename) as [r |]; [ | split; reflexivity].
  destruct (String.eqb r p); [ | destruct (files w r); [ | split; reflexivity]];
    (destruct (parse_lines parse _) as [values |]; [ | split; reflexivity]);
    destruct (squeeze values); split; reflexivity.
Qed.

Lemma save_all_files (arrays : list (list float)) :
  forall (filenames : list string) (paths : list Path) (w : World),
  Forall (fun a => exact_on fmt parse a /\ List.length a <> 1) arrays ->
  List.length filenames = List.length arrays ->
  map (open_w w) filenames = map Some paths ->
  map (open_r w) filenames = map Some paths ->
  NoDup paths ->
  exists w' : World,
    save_all arrays filenames w = (Returned tt, w') /\
    (forall q : Path, ~ In q paths -> files w' q = files w q) /\
    (forall (i : nat) (a : list float) (p : Path),
       nth_error arrays i = Some a -> nth_error paths i = Some p ->
       files w' p = Some (lines_text (map fmt a))) /\
    List.length (stdout w') = List.length (stdout w) + 4 * List.length arrays.
Proof.
  induction arrays as [| a arrays IH]; intros filenames paths w Hall Hlen Hw Hr Hnd.
  - exists w. split; [reflexivity | ]. split; [reflexivity | ].
    split; [intros [| i] ? ? H; discriminate | cbn; lia].
  - destruct filenames as [| f fs]; [discriminate | ].
    destruct paths as [| p ps]; [discriminate | ].
    cbn [map] in Hw, Hr. injection Hw as Hwf Hws. injection Hr as Hrf Hrs.
    inversion Hall as [| ? ? [Hex Ha] Hrest]; subst.
    inversion Hnd as [| ? ? Hnotin Hnd']; subst.
    pose proof (saveArray_returns a f p w Hex Ha Hwf Hrf) as Hsave.
    destruct (IH fs ps (saved_world a f p w) Hrest ltac:(cbn in Hlen; lia) Hws Hrs Hnd')
      as (w' & Hrun & Hframe & Hfiles & Hout).
    exists w'. split; [rewrite save_all_cons; unfold bind; rewrite Hsave; exact Hrun | ].
    split; [ | split].
    + intros q Hq. rewrite Hframe by (intros Hin; apply Hq; right; exact Hin).
      cbn [saved_world files].
      destruct (String.eqb_spec q p) as [-> | _]; [ | reflexivity].
      exfalso. apply Hq. left. reflexivity.
    + intros [| i] a' p' Ha' Hp'; cbn [nth_error] in Ha', Hp'.
      * injection Ha' as <-. injection Hp' as <-.
        rewrite (Hframe p Hnotin). cbn [saved_world files]. rewrite String.eqb_refl.
        reflexivity.
      * exact (Hfiles i a' p' Ha' Hp').
    + rewrite Hout. cbn [saved_world stdout List.length]. rewrite length_app.
      cbn [List.length]. lia.
Qed.

Lemma save_all_stops (pre : list (list float)) :
  forall (names_pre : list string) (paths_pre : list Path) (x : float)
         (post : list (list float)) (f : string) (p : Path) (names_post : list string)
         (w : World),
  Forall (fun a => exact_on fmt parse a /\ List.length a <> 1) pre ->
  exact_on fmt parse [x] ->
  List.length names_pre = List.length pre ->
  map (open_w w) names_pre = map Some paths_pre ->
  map (open_r w) names_pre = map Some paths_pre ->
  open_w w f = Some p -> open_r w f = Some p ->
  NoDup (paths_pre ++ [p])%list ->
  exists w' : World,
    save_all (pre ++ [x] :: post)%list (names_pre ++ f :: names_post)%list w
      = (Raised IndexError, w') /\
    files w' p = Some (lines_text (map fmt [x])) /\
    (forall q : Path, ~ In q paths_pre -> q <> p -> files w' q = files w q).
Proof.
  induction pre as [| a pre IH];
    intros names_pre paths_pre x post f p names_post w Hall Hex Hlen Hw Hr Hwf Hrf Hnd.
  - destruct names_pre as [| n names_pre]; [ | discriminate]. cbn [app] in *.
    exists (snd (saveArray [x] f w)).
    pose proof (saveArray_one_value x f p w Hex Hwf Hrf) as Hraise.
    split; [ | split].
    + rewrite save_all_cons. unfold bind.
      destruct (saveArray [x] f w) as [[[] | e] w1];
        cbn [fst snd] in *; [discriminate | congruence].
    + rewrite (saveArray_files [x] f p w p Hwf), String.eqb_refl. reflexivity.
    + intros q _ Hq. rewrite (saveArray_files [x] f p w q Hwf).
      destruct (String.eqb_spec q p); [contradiction | reflexivity].
  - destruct names_pre as [| n names_pre]; [discriminate | ].
    destruct paths_pre as [| pn paths_pre]; [discriminate | ]. cbn [app] in *.
    cbn [map] in Hw, Hr. injection Hw as Hwn Hws. injection Hr as Hrn Hrs.
    inversion Hall as [| ? ? [Hexa Ha] Hrest]; subst.
    inversion Hnd as [| ? ? Hnotin Hnd']; subst.
    pose proof (saveArray_returns a n pn w Hexa Ha Hwn Hrn) as Hsave.
    destruct (IH names_pre paths_pre x post f p names_post (saved_world a n pn w)
                Hrest Hex ltac:(cbn in Hlen; lia) Hws Hrs Hwf Hrf Hnd')
      as (w' & Hrun & Hfile & Hframe).
    exists w'. split; [rewrite save_all_cons; unfold bind; rewrite Hsave; exact Hrun | ].
    split; [exact Hfile | ].
    intros q Hq Hqp. rewrite (Hframe q) by (try (intros Hin; apply Hq; right; exact Hin); exact Hqp).
    cbn [saved_world files].
    destruct (String.eqb_spec q pn) as [-> | _]; [ | reflexivity].
    exfalso. apply Hq. left. reflexivity.
Qed.

(** X10: [saveArray] writes at most one file: when the name cannot be
    opened for writing it raises after its first two prints and no file
    changes; when the name opens at a file, that file holds the lines of the
    array afterwards, whether the call then returns or raises, and every
    other file is as it was. *)
Theorem saveArray_writes_one_file (array : list float) (filename : string) (w : World) :
  (open_w w filename = None ->
   fst (saveArray array filename w) = Raised OSError /\
   forall q : Path, files (snd (saveArray array filename w)) q = files w q) /\
  (forall p : Path, open_w w filename = Some p ->
   files (snd (saveArray array filename w)) p = Some (lines_text (map fmt array)) /\
   forall q : Path, q <> p -> files (snd (saveArray array filename w)) q = files w q).
Proof.
  split.
  - intros Hw. rewrite (saveArray_refused array filename w Hw). split; reflexivity.
  - intros p Hw. split.
    + rewrite (saveArray_files array filename p w p Hw), String.eqb_refl. reflexivity.
    + intros q Hq. rewrite (saveArray_files array filename p w q Hw).
      destruct (String.eqb_spec q p); [contradiction | reflexivity].
Qed.

(** X11: an array of any length but one, whose values the text format
    gives back, saved under a name that opens for writing and for reading at
    one file: [saveArray] returns, and in the kernel it leaves
    [np.loadtxt(filename)] returns the array that was saved and changes
    nothing. *)
Theorem saved_array_loads_again (array : list float) (filename : string) (p : Path)
    (w : World) :
  exact_on fmt parse array -> List.length array <> 1 ->
  open_w w filename = Some p -> open_r w filename = Some p ->
  fst (saveArray array filename w) = Returned tt /\
  np_loadtxt filename (snd (saveArray array filename w))
    = (Returned (Array1 array), snd (saveArray array filename w)).
Proof.
  intros Hex Hlen Hw Hr.
  rewrite (saveArray_returns array filename p w Hex Hlen Hw Hr). cbn [fst snd].
  split; [reflexivity | ].
  unfold np_loadtxt, bind, read_text. cbn [saved_world open_r files]. rewrite Hr.
  rewrite String.eqb_refl.
  rewrite (Kernel.split_lines_text fmt parse array Hex),
    (Kernel.parse_written_lines fmt parse array Hex).
  destruct array as [| x [| y array]]; [reflexivity | cbn in Hlen; congruence | reflexivity].
Qed.

(** X12: the loop that saves the arrays under their file names: with one
    name for each array, each name opening for writing and for reading at
    one file, no file reached twice, no array of length one and values that
    the text format gives back, the loop runs to its end; afterwards each of
    these files holds the lines of its array, every other file is as it was,
    and four prints were made for each array. *)
Theorem save_all_writes_each_file
    (arrays : list (list float)) (filenames : list string) (paths : list Path) (w : World) :
  Forall (fun a => exact_on fmt parse a /\ List.length a <> 1) arrays ->
  List.length filenames = List.length arrays ->
  map (open_w w) filenames = map Some paths ->
  map (open_r w) filenames = map Some paths ->
  NoDup paths ->
  fst (save_all arrays filenames w) = Returned tt /\
  (forall (i : nat) (a : list float) (p : Path),
     nth_error arrays i = Some a -> nth_error paths i = Some p ->
     files (snd (save_all arrays filenames w)) p = Some (lines_text (map fmt a))) /\
  (forall q : Path, ~ In q paths ->
     files (snd (save_all arrays filenames w)) q = files w q) /\
  List.length (stdout (snd (save_all arrays filenames w)))
    = List.length (stdout w) + 4 * List.length arrays.
Proof.
  intros Hall Hlen Hw Hr Hnd.
  destruct (save_all_files arrays filenames paths w Hall Hlen Hw Hr Hnd)
    as (w' & Hrun & Hframe & Hfiles & Hout).
  rewrite Hrun. cbn [fst snd]. repeat split; assumption.
Qed.

(** X13: an array of length one stops the loop: under the conditions of
    the loop for the arrays before it, and a name that opens for writing and
    for reading at a file of its own, [saveArray] writes that file and
    raises [IndexError], so the loop raises there; every file but this one
    and those of the arrays before it is as it was, the files of the arrays
    that follow among them. *)
Theorem save_all_stops_at_one_value
    (pre : list (list float)) (names_pre : list string) (paths_pre : list Path)
    (x : float) (post : list (list float)) (f : string) (p : Path)
    (names_post : list string) (w : World) :
  Forall (fun a => exact_on fmt parse a /\ List.length a <> 1) pre ->
  exact_on fmt parse [x] ->
  List.length names_pre = List.length pre ->
  map (open_w w) names_pre = map Some paths_pre ->
  map (open_r w) names_pre = map Some paths_pre ->
  open_w w f = Some p -> open_r w f = Some p ->
  NoDup (paths_pre ++ [p])%list ->
  fst (save_all (pre ++ [x] :: post)%list (names_pre ++ f :: names_post)%list w)
    = Raised IndexError /\
  files (snd (save_all (pre ++ [x] :: post)%list (names_pre ++ f :: names_post)%list w)) p
    = Some (lines_text (map fmt [x])) /\
  (forall q : Path, ~ In q paths_pre -> q <> p ->
     files (snd (save_all (pre ++ [x] :: post)%list
                   (names_pre ++ f :: names_post)%list w)) q = files w q).
Proof.
  intros Hall Hex Hlen Hw Hr Hwf Hrf Hnd.
  destruct (save_all_stops pre names_pre paths_pre x post f p names_post w
              Hall Hex Hlen Hw Hr Hwf Hrf Hnd) as (w' & Hrun & Hfile & Hframe).
  rewrite Hrun. cbn [fst snd]. repeat split; assumption.
Qed.

End TextFiles.

Lemma two_values_exact (array : list float) :
  Forall (fun x => x = 1%float \/ x = (-2.5)%float) array ->
  exact_on fmt_two_values float_two_values array.
Proof.
  intros Hall x Hin. rewrite Forall_forall in Hall.
  destruct (Hall x Hin) as [-> | ->]; (split; [reflexivity | split; [discriminate | reflexivity]]).
Qed.

Lemma saved_array_loads_again_witness :
  fst (saveArray fmt_two_values float_two_values [1; -2.5]%float "flux_av214_sw.txt"
         empty_directory) = Returned tt /\
  np_loadtxt float_two_values "flux_av214_sw.txt"
      (snd (saveArray fmt_two_values float_two_values [1; -2.5]%float "flux_av214_sw.txt"
              empty_directory))
    = (Returned (Array1 [1; -2.5]%float),
       snd (saveArray fmt_two_values float_two_values [1; -2.5]%float "flux_av214_sw.txt"
              empty_directory)).
Proof.
  apply (saved_array_loads_again fmt_two_values float_two_values [1; -2.5]%float
           "flux_av214_sw.txt" "flux_av214_sw.txt" empty_directory).
  - apply two_values_exact.
    constructor; [left; reflexivity | constructor; [right; reflexivity | constructor]].
  - cbn. lia.
  - reflexivity.
  - reflexivity.
Defined.

Lemma save_all_writes_each_file_witness :
  fst (save_all fmt_two_values float_two_values [[1; -2.5]%float; []]
         ["wav.txt"; "flux.txt"] empty_directory) = Returned tt /\
  (forall (i : nat) (a : list float) (p : Path),
     nth_error [[1; -2.5]%float; []] i = Some a ->
     nth_error ["wav.txt"; "flux.txt"] i = Some p ->
     files (snd (save_all fmt_two_values float_two_values [[1; -2.5]%float; []]
                   ["wav.txt"; "flux.txt"] empty_directory)) p
       = Some (lines_text (map fmt_two_values a))) /\
  (forall q : Path, ~ In q ["wav.txt"; "flux.txt"] ->
     files (snd (save_all fmt_two_values float_two_values [[1; -2.5]%float; []]
                   ["wav.txt"; "flux.txt"] empty_directory)) q = files empty_directory q) /\
  List.length (stdout (snd (save_all fmt_two_values float_two_values [[1; -2.5]%float; []]
                              ["wav.txt"; "flux.txt"] empty_directory)))
    = List.length (stdout empty_directory) + 4 * List.length [[1; -2.5]%float; []].
Proof.
  apply (save_all_writes_each_file fmt_two_values float_two_values
           [[1; -2.5]%float; []] ["wav.txt"; "flux.txt"] ["wav.txt"; "flux.txt"]
           empty_directory).
  - constructor; [split; [ | cbn; lia] | constructor; [split; [ | cbn; lia] | constructor]].
    + apply two_values_exact.
      constructor; [left; reflexivity | constructor; [right; reflexivity | constructor]].
    + apply two_values_exact. constructor.
  - reflexivity.
  - reflexivity.
  - reflexivity.
  - constructor; [cbn; intros [H | []]; discriminate | ].
    constructor; [cbn; intros [] | constructor].
Defined.

Lemma save_all_stops_at_one_value_witness :
  fst (save_all fmt_two_values float_two_values
         ([[1; -2.5]%float] ++ [1%float] :: [[-2.5; 1]%float])%list
         (["a.txt"] ++ "b.txt" :: ["c.txt"])%list empty_directory) = Raised IndexError /\
  files (snd (save_all fmt_two_values float_two_values
                ([[1; -2.5]%float] ++ [1%float] :: [[-2.5; 1]%float])%list
                (["a.txt"] ++ "b.txt" :: ["c.txt"])%list empty_directory)) "b.txt"
    = Some (lines_text (map fmt_two_values [1%float])) /\
  (forall q : Path, ~ In q ["a.txt"] -> q <> "b.txt" ->
     files (snd (save_all fmt_two_values float_two_values
                   ([[1; -2.5]%float] ++ [1%float] :: [[-2.5; 1]%float])%list
                   (["a.txt"] ++ "b.txt" :: ["c.txt"])%list empty_directory)) q
       = files empty_directory q).
Proof.
  apply (save_all_stops_at_one_value fmt_two_values float_two_values
           [[1; -2.5]%float] ["a.txt"] ["a.txt"] 1%float [[-2.5; 1]%float]
           "b.txt" "b.txt" ["c.txt"] empty_directory).
  - constructor; [split; [ | cbn; lia] | constructor].
    apply two_values_exact.
    constructor; [left; reflexivity | constructor; [right; reflexivity | constructor]].
  - apply two_values_exact. constructor; [left; reflexivity | constructor].
  - reflexivity.
  - reflexivity.
  - reflexivity.
  - reflexivity.
  - reflexivity.
  - constructor; [cbn; intros [H | []]; discriminate | ].
    constructor; [cbn; intros [] | constructor].
Defined.

End Disk.

(** ** Extinction notebook: the curve that is plotted over the fit *)

Module Curve.

Import Extinction.
Local Open Scope R_scope.

(** [np.linspace(start, stop, num)]: [arange(0, num) * step + start] with
    [step = (stop - start)/(num - 1)]; numpy then stores [stop] in the last
    entry, which over the reals is the value already there. *)
Definition np_linspace (start stop : R) (num : nat) : list R :=
  map (fun i => INR i * ((stop - start) / INR (num - 1)) + start) (seq 0 num).

(** The cell that draws the fitted curve, on the array [x_wavinv] with the
    fitted [parameters]:
    [F = 0.5392*(x_wavinv-5.9)**2+0.05644*(x_wavinv-5.9)**3],
    [D = x_wavinv**2/((x_wavinv**2-parameters[4]**2)**2+x_wavinv**2*parameters[5]**2)],
    [k = parameters[0] + parameters[1]*x_wavinv + parameters[2]*D + parameters[3]*F]. *)
Definition plotted (x_wavinv : list R) (p0 p1 p2 p3 p4 p5 : R) : list R :=
  let F := farUV x_wavinv in
  let D := map (drude p4 p5) x_wavinv in
  let k := vadd (vadd (shift p0 (scal p1 x_wavinv)) (scal p2 D)) (scal p3 F) in
  k.

Lemma plotted_entries (x : list R) (p0 p1 p2 p3 p4 p5 : R) :
  plotted x p0 p1 p2 p3 p4 p5 = map (FMpar_entry true p0 p1 p2 p3 p4 p5) x.
Proof.
  unfold plotted, farUV, vadd, shift, scal. rewrite !map_map.
  rewrite combine_map_map, map_map. cbn [fst snd].
  rewrite combine_map_map, map_map. cbn [fst snd]. reflexivity.
Qed.

Lemma linspace_last (start stop : R) (num : nat) :
  (2 <= num)%nat -> In stop (np_linspace start stop num).
Proof.
  intros Hnum. unfold np_linspace. apply in_map_iff. exists (num - 1)%nat.
  split; [ | apply in_seq; lia].
  assert (Hpos : INR (num - 1) <> 0) by (apply not_0_INR; lia).
  field. exact Hpos.
Qed.

Lemma any_ge_of_member (x : list R) (v : R) : In v x -> v >= 5.9 -> any_ge x = true.
Proof.
  intros Hin Hge. unfold any_ge. apply existsb_exists. exists v.
  split; [exact Hin | ]. destruct (Rge_dec v 5.9); [reflexivity | contradiction].
Qed.

(** X14: the curve drawn over the data is the function that was fitted:
    on a grid [np.linspace(start, stop, num)] of at least two points that
    ends at or above 5.9 (the notebook's grids end at 8 and at 9) the
    plotted array is what [FMpar] returns for the grid and the fitted
    parameters, and with [xo = 4.6], [gamma = 1.0] what the four-parameter
    [FMpar] returns. *)
Theorem plotted_curve_is_fitted_function
    (start stop : R) (num : nat) (p0 p1 p2 p3 p4 p5 : R) :
  (2 <= num)%nat -> stop >= 5.9 ->
  plotted (np_linspace start stop num) p0 p1 p2 p3 p4 p5
    = FMpar (np_linspace start stop num) p0 p1 p2 p3 p4 p5 /\
  plotted (np_linspace start stop num) p0 p1 p2 p3 4.6 1.0
    = FMpar_SMC (np_linspace start stop num) p0 p1 p2 p3 /\
  length (plotted (np_linspace start stop num) p0 p1 p2 p3 p4 p5) = num.
Proof.
  intros Hnum Hstop.
  pose proof (any_ge_of_member _ stop (linspace_last start stop num Hnum) Hstop) as Hany.
  split; [ | split].
  - rewrite plotted_entries, FMpar_entries, Hany. reflexivity.
  - rewrite FMpar_SMC_eq, plotted_entries, FMpar_entries, Hany. reflexivity.
  - rewrite plotted_entries, length_map. unfold np_linspace.
    rewrite length_map, length_seq. reflexivity.
Qed.

Lemma plotted_curve_is_fitted_function_witness :
  plotted (np_linspace 3 8 1000) 1 1 1 1 4.6 1
    = FMpar (np_linspace 3 8 1000) 1 1 1 1 4.6 1 /\
  plotted (np_linspace 3 8 1000) 1 1 1 1 4.6 1.0
    = FMpar_SMC (np_linspace 3 8 1000) 1 1 1 1 /\
  length (plotted (np_linspace 3 8 1000) 1 1 1 1 4.6 1) = 1000%nat.
Proof.
  apply (plotted_curve_is_fitted_function 3 8 1000 1 1 1 1 4.6 1).
  - lia.
  - lra.
Defined.

(** X15: on an array that lies wholly at or above 5.9, or wholly below it,
    [FMpar] and its four-parameter copy return the curve of the notebook's
    text at every abscissa; the result always has the length of [x]. *)
Theorem FMpar_is_text_curve_on_one_side (x : list R) (C1 C2 C3 C4 xo gamma : R) :
  (forall v, In v x -> v >= 5.9) \/ (forall v, In v x -> v < 5.9) ->
  FMpar x C1 C2 C3 C4 xo gamma = map (FM_closed_form C1 C2 C3 C4 xo gamma) x /\
  FMpar_SMC x C1 C2 C3 C4 = map (FM_closed_form C1 C2 C3 C4 4.6 1.0) x /\
  length (FMpar x C1 C2 C3 C4 xo gamma) = length x.
Proof.
  intros Hside. split; [apply FMpar_closed_form_one_sided; exact Hside | ].
  split; [rewrite FMpar_SMC_eq; apply FMpar_closed_form_one_sided; exact Hside | ].
  rewrite FMpar_entries, length_map. reflexivity.
Qed.

Lemma FMpar_is_text_curve_on_one_side_witness :
  FMpar [3; 4] 1 1 1 1 4.6 1 = map (FM_closed_form 1 1 1 1 4.6 1) [3; 4] /\
  FMpar_SMC [3; 4] 1 1 1 1 = map (FM_closed_form 1 1 1 1 4.6 1.0) [3; 4] /\
  length (FMpar [3; 4] 1 1 1 1 4.6 1) = length [3; 4].
Proof.
  apply (FMpar_is_text_curve_on_one_side [3; 4] 1 1 1 1 4.6 1).
  right. intros v [<- | [<- | []]]; lra.
Defined.

(** X16: what [FMpar] returns on every array: entry [i] is
    [C1 + C2*x[i] + C3*D(x[i]) + C4*F], where [F] is the far-UV polynomial at
    [x[i]] when some element of [x] is at or above 5.9, wherever [x[i]]
    lies, and zero when none is. *)
Theorem FMpar_far_UV_term_all_or_none (x : list R) (C1 C2 C3 C4 xo gamma : R) (i : nat) :
  (i < length x)%nat ->
  nth i (FMpar x C1 C2 C3 C4 xo gamma) 0
    = C1 + C2 * nth i x 0 + C3 * drude xo gamma (nth i x 0)
      + C4 * (if any_ge x then farUV_poly (nth i x 0) else 0) /\
  (any_ge x = true <-> exists v, In v x /\ v >= 5.9).
Proof.
  intros Hi. split.
  - rewrite FMpar_entries.
    rewrite (nth_indep _ 0 (FMpar_entry (any_ge x) C1 C2 C3 C4 xo gamma 0))
      by (rewrite length_map; exact Hi).
    rewrite map_nth. reflexivity.
  - unfold any_ge. rewrite existsb_exists. split; intros [v [Hin Hv]]; exists v;
      (split; [exact Hin | ]); destruct (Rge_dec v 5.9); try reflexivity;
      try assumption; try discriminate; contradiction.
Qed.

Lemma FMpar_far_UV_term_all_or_none_witness :
  nth 0 (FMpar [3; 6] 1 1 1 1 4.6 1) 0
    = 1 + 1 * nth 0 [3; 6] 0 + 1 * drude 4.6 1 (nth 0 [3; 6] 0)
      + 1 * (if any_ge [3; 6] then farUV_poly (nth 0 [3; 6] 0) else 0) /\
  (any_ge [3; 6] = true <-> exists v, In v [3; 6] /\ v >= 5.9).
Proof.
  apply (FMpar_far_UV_term_all_or_none [3; 6] 1 1 1 1 4.6 1 0). cbn. lia.
Defined.

End Curve.

(** ** Extinction notebook: the samples without a value *)

Module FitData.

Import Floats Fallible UVSpectra.

Fixpoint set_from (pos : nat) (a : list float) (idx : list nat) (v : float) : list float :=
  match a with
  | [] => []
  | x :: a' =>
    (if existsb (Nat.eqb pos) idx then v else x) :: set_from (S pos) a' idx v
  end.

(** [a[idx] = v] for an array of non-negative indices: the listed entries
    become [v]; an index past the end raises [IndexError], here [None]. *)
Definition setitem_index (a : list float) (idx : list nat) (v : float) : option (list float) :=
  if forallb (fun i => Nat.ltb i (length a)) idx then Some (set_from 0 a idx v) else None.

(** [prob = np.where(np.isnan(k_lam_V))[0]], [wvinv[prob] = 0],
    [k_lam_V[prob] = 0]: the two arrays after the cell. *)
Definition zero_missing (wvinv k_lam_V : list float) : option (list float * list float) :=
  let prob := np_where is_nan k_lam_V in
  wvinv <- setitem_index wvinv prob 0%float ;;
  k_lam_V <- setitem_index k_lam_V prob 0%float ;;
  Some (wvinv, k_lam_V).

(** A sample as the cell leaves it. *)
Definition zeroed (s : float * float) : float * float :=
  if is_nan (snd s) then (0%float, 0%float) else s.

Lemma set_from_skip (a : list float) (pos i : nat) (idx : list nat) (v : float) :
  i < pos -> set_from pos a (i :: idx) v = set_from pos a idx v.
Proof.
  revert pos. induction a as [| x a IH]; intros pos Hlt; [reflexivity | ].
  cbn [set_from existsb].
  destruct (Nat.eqb_spec pos i); [lia | ]. cbn [orb].
  rewrite IH by lia. reflexivity.
Qed.

Lemma set_where_rows {T : Type} (col key : T -> float) (p : float -> bool)
    (rows : list T) (pos : nat) (v : float) :
  set_from pos (map col rows) (where_from pos p (map key rows)) v =
    map (fun r => if p (key r) then v else col r) rows.
Proof.
  revert pos. induction rows as [| r rows IH]; intros pos; [reflexivity | ].
  cbn [map where_from set_from].
  destruct (p (key r)).
  - cbn [existsb]. rewrite Nat.eqb_refl. cbn [orb].
    rewrite set_from_skip by lia. f_equal. apply IH.
  - rewrite existsb_eqb_below.
    + f_equal. apply IH.
    + eapply Forall_impl; [ | apply where_from_bounds]. cbn. intros i Hi. lia.
Qed.

Lemma setitem_where_rows {T : Type} (col key : T -> float) (p : float -> bool)
    (rows : list T) (v : float) :
  setitem_index (map col rows) (np_where p (map key rows)) v =
    Some (map (fun r => if p (key r) then v else col r) rows).
Proof.
  unfold setitem_index, np_where.
  assert (Hin : forallb (fun i => Nat.ltb i (length (map col rows)))
                        (where_from 0 p (map key rows)) = true).
  { apply forallb_forall. intros i Hi.
    pose proof (where_from_bounds p (map key rows) 0) as Hb.
    rewrite Forall_forall in Hb. specialize (Hb i Hi).
    rewrite !length_map in *. apply Nat.ltb_lt. lia. }
  rewrite Hin, set_where_rows. reflexivity.
Qed.

Lemma split_combine_eq {A B : Type} (a : list A) (b : list B) :
  length a = length b ->
  map fst (combine a b) = a /\ map snd (combine a b) = b.
Proof.
  revert b. induction a as [| x a IH]; intros [| y b] Hlen; try discriminate;
    [split; reflexivity | ].
  cbn [combine map fst snd]. destruct (IH b ltac:(cbn in Hlen; lia)) as [-> ->].
  split; reflexivity.
Qed.

(** X17: on two arrays of one length the cell never raises and keeps the
    lengths; a sample whose [k_lam_V] is NaN becomes the point [(0, 0)] in
    both arrays, it is not removed; every other sample is as it was; and no
    NaN is left in [k_lam_V]. *)
Theorem zero_missing_samples (wvinv k_lam_V : list float) :
  length wvinv = length k_lam_V ->
  exists w k : list float,
    zero_missing wvinv k_lam_V = Some (w, k) /\
    length w = length wvinv /\ length k = length k_lam_V /\
    combine w k = map zeroed (combine wvinv k_lam_V) /\
    Forall (fun x => is_nan x = false) k.
Proof.
  intros Hlen.
  destruct (split_combine_eq wvinv k_lam_V Hlen) as [Ew Ek].
  pose (rows := combine wvinv k_lam_V).
  assert (Ec : combine wvinv k_lam_V = rows) by reflexivity.
  rewrite Ec. fold rows in Ew, Ek. clearbody rows. clear Ec Hlen. subst wvinv k_lam_V.
  exists (map (fun r => if is_nan (snd r) then 0%float else fst r) rows),
         (map (fun r => if is_nan (snd r) then 0%float else snd r) rows).
  split.
  { unfold zero_missing.
    rewrite (setitem_where_rows fst snd is_nan rows). cbn [bind].
    rewrite (setitem_where_rows snd snd is_nan rows). reflexivity. }
  rewrite !length_map.
  split; [reflexivity | ]. split; [reflexivity | ].
  split.
  - rewrite Extinction.combine_map_map. apply map_ext. intros [a b].
    unfold zeroed. cbn [fst snd]. destruct (is_nan b); reflexivity.
  - apply Forall_forall. intros x Hx. apply in_map_iff in Hx.
    destruct Hx as [[a b] [<- _]]. cbn [fst snd].
    destruct (is_nan b) eqn:E; [reflexivity | exact E].
Qed.

Lemma zero_missing_samples_witness :
  exists w k : list float,
    zero_missing [4; 5; nan]%float [7; nan; 9]%float = Some (w, k) /\
    length w = length [4; 5; nan]%float /\ length k = length [7; nan; 9]%float /\
    combine w k = map zeroed (combine [4; 5; nan]%float [7; nan; 9]%float) /\
    Forall (fun x => is_nan x = false) k.
Proof.
  apply (zero_missing_samples [4; 5; nan]%float [7; nan; 9]%float). reflexivity.
Defined.

End FitData.

(** ** Eclipse candidates notebook: the top candidate and the light-curve flags *)

Module Crossmatch.

Import QArith String Fallible Candidates.
Local Open Scope Q_scope.

(** The candidate table with the two columns the notebook adds: a column
    that the table does not have yet is [None]. *)
Record Flagged := mkFlagged {
  systems : Table;
  TASOC : option (list bool);
  QLP : option (list bool)
}.

(** [tbl.add_column(col)] for the column named [TASOC]: a second column of
    that name, or a column of another length than the table, raises
    [ValueError]. *)
Definition add_column_TASOC (tbl : Flagged) (col : list bool) : option Flagged :=
  match TASOC tbl with
  | Some _ => None
  | None =>
    if Nat.eqb (List.length col) (List.length (systems tbl))
    then Some (mkFlagged (systems tbl) (Some col) (QLP tbl)) else None
  end.

Definition add_column_QLP (tbl : Flagged) (col : list bool) : option Flagged :=
  match QLP tbl with
  | Some _ => None
  | None =>
    if Nat.eqb (List.length col) (List.length (systems tbl))
    then Some (mkFlagged (systems tbl) (TASOC tbl) (Some col)) else None
  end.

(** [tbl['TASOC'] = col]: the column is replaced, or added when there is
    none; a column of another length raises [ValueError]. *)
Definition setitem_TASOC (tbl : Flagged) (col : list bool) : option Flagged :=
  if Nat.eqb (List.length col) (List.length (systems tbl))
  then Some (mkFlagged (systems tbl) (Some col) (QLP tbl)) else None.

Definition setitem_QLP (tbl : Flagged) (col : list bool) : option Flagged :=
  if Nat.eqb (List.length col) (List.length (systems tbl))
  then Some (mkFlagged (systems tbl) (TASOC tbl) (Some col)) else None.

(** The cell that sets up the flags: [n=len(tbl)], two columns
    [np.full(n,False)], each added when the table has no column of its name
    and assigned otherwise. *)
Definition init_flags (tbl : Flagged) : option Flagged :=
  let n := List.length (systems tbl) in
  let col_TASOC := repeat false n in
  let col_QLP := repeat false n in
  tbl <- (match TASOC tbl with
          | None => add_column_TASOC tbl col_TASOC
          | Some _ => setitem_TASOC tbl col_TASOC
          end) ;;
  tbl <- (match QLP tbl with
          | None => add_column_QLP tbl col_QLP
          | Some _ => setitem_QLP tbl col_QLP
          end) ;;
  Some tbl.

Fixpoint set_true (i : nat) (col : list bool) : list bool :=
  match col, i with
  | [], _ => []
  | _ :: col', O => true :: col'
  | b :: col', S i' => b :: set_true i' col'
  end.

(** [tbl[name][i]=True]: [KeyError] without the column, [IndexError] past
    its end. *)
Definition mark (col : option (list bool)) (i : nat) : option (list bool) :=
  match col with
  | None => None
  | Some col => if Nat.ltb i (List.length col) then Some (set_true i col) else None
  end.

(** [np.sum(tbl[name])] on a column of booleans. *)
Definition np_sum (col : list bool) : nat := List.length (filter (fun b => b) col).

(** An archive that holds a TASOC light curve wherever it is asked. *)
Definition tasoc_everywhere (ra dec : Q) : list string := ["TASOC"%string].

Section Archive.

(** [Observations.query_region(coord, radius=0)['provenance_name']] for the
    coordinate with the given right ascension and declination: what the
    archive answers is not the notebook's to decide. *)
Variable query_region : Q -> Q -> list string.

(** [np.any(obs_tbl['provenance_name']==name)] for the observations at the
    coordinates of one system. *)
Definition found (name : string) (r : System) : bool :=
  existsb (fun p => String.eqb p name) (query_region (RAJ2000 r) (DEJ2000 r)).

(** One turn of [for i in range(0,n)], as far as the table goes: the query
    at the coordinates of row [i] and the two assignments.  The prints of
    the loop read the table and change nothing in it. *)
Definition body (tbl : Flagged) (i : nat) : option Flagged :=
  match nth_error (systems tbl) i with
  | None => None
  | Some r =>
    tbl <- (if found "TASOC" r
            then col <- mark (TASOC tbl) i ;;
                 Some (mkFlagged (systems tbl) (Some col) (QLP tbl))
            else Some tbl) ;;
    tbl <- (if found "QLP" r
            then col <- mark (QLP tbl) i ;;
                 Some (mkFlagged (systems tbl) (TASOC tbl) (Some col))
            else Some tbl) ;;
    Some tbl
  end.

Definition crossmatch (n : nat) (tbl : Flagged) : option Flagged :=
  fold_left (fun acc i => tbl <- acc ;; body tbl i) (seq 0 n) (Some tbl).

(** Whether the system at index [j] has a light curve of the given
    provenance. *)
Definition found_at (name : string) (rows : Table) (j : nat) : bool :=
  match nth_error rows j with
  | Some r => found name r
  | None => false
  end.

Lemma set_true_length (i : nat) (col : list bool) :
  List.length (set_true i col) = List.length col.
Proof.
  revert i. induction col as [| b col IH]; intros [| i]; cbn; try reflexivity.
  rewrite IH. reflexivity.
Qed.

Lemma set_true_nth (i j : nat) (col : list bool) :
  (i < List.length col)%nat ->
  nth j (set_true i col) false = (Nat.eqb j i || nth j col false)%bool.
Proof.
  revert i j. induction col as [| b col IH]; intros i j Hi; [cbn in Hi; lia | ].
  destruct i as [| i], j as [| j]; cbn [set_true nth Nat.eqb orb]; try reflexivity.
  apply IH. cbn in Hi. lia.
Qed.

Lemma crossmatch_succ (n : nat) (tbl : Flagged) :
  crossmatch (S n) tbl = (t <- crossmatch n tbl ;; body t n).
Proof. unfold crossmatch. rewrite seq_S, fold_left_app. reflexivity. Qed.

(** The loop after [k] turns: the flags of the first [k] systems are
    joined with what the archive holds for them. *)
Lemma crossmatch_turns (tbl : Flagged) (a b : list bool) (k : nat) :
  TASOC tbl = Some a -> QLP tbl = Some b ->
  List.length a = List.length (systems tbl) ->
  List.length b = List.length (systems tbl) ->
  (k <= List.length (systems tbl))%nat ->
  exists a' b' : list bool,
    crossmatch k tbl = Some (mkFlagged (systems tbl) (Some a') (Some b')) /\
    List.length a' = List.length a /\ List.length b' = List.length b /\
    (forall j, nth j a' false
               = (nth j a false || (Nat.ltb j k && found_at "TASOC" (systems tbl) j))%bool) /\
    (forall j, nth j b' false
               = (nth j b false || (Nat.ltb j k && found_at "QLP" (systems tbl) j))%bool).
Proof.
  intros Ha Hb Hla Hlb. induction k as [| k IH]; intros Hk.
  - exists a, b. split; [destruct tbl; cbn in *; subst; reflexivity | ].
    repeat split; intros j; rewrite orb_false_r; reflexivity.
  - destruct (IH ltac:(lia)) as (a' & b' & Hrun & Hla' & Hlb' & Hna & Hnb).
    rewrite crossmatch_succ, Hrun. cbn [bind]. unfold body. cbn [systems TASOC QLP].
    destruct (nth_error (systems tbl) k) as [r |] eqn:Er;
      [ | apply nth_error_None in Er; lia].
    assert (HfT : found_at "TASOC" (systems tbl) k = found "TASOC" r)
      by (unfold found_at; rewrite Er; reflexivity).
    assert (HfQ : found_at "QLP" (systems tbl) k = found "QLP" r)
      by (unfold found_at; rewrite Er; reflexivity).
    assert (Hstep : forall (name : string) (old col : list bool) (j : nat),
              List.length col = List.length old ->
              List.length old = List.length (systems tbl) ->
              (forall j, nth j col false
                 = (nth j old false || (Nat.ltb j k && found_at name (systems tbl) j))%bool) ->
              nth j (if found_at name (systems tbl) k then set_true k col else col) false
              = (nth j old false || (Nat.ltb j (S k) && found_at name (systems tbl) j))%bool).
    { intros name old col j Hl Hlo Hn.
      destruct (found_at name (systems tbl) k) eqn:Ef.
      - rewrite set_true_nth by lia. rewrite Hn.
        destruct (Nat.eqb_spec j k) as [-> | Hne].
        + rewrite Ef. replace (Nat.ltb k (S k)) with true by (symmetry; apply Nat.ltb_lt; lia).
          cbn [orb andb]. rewrite orb_true_r. reflexivity.
        + cbn [orb]. f_equal. f_equal.
          destruct (Nat.ltb_spec j k), (Nat.ltb_spec j (S k)); try reflexivity; lia.
      - rewrite Hn. destruct (Nat.eqb_spec j k) as [-> | Hne].
        + rewrite Ef, !andb_false_r. reflexivity.
        + f_equal. f_equal.
          destruct (Nat.ltb_spec j k), (Nat.ltb_spec j (S k)); try reflexivity; lia. }
    exists (if found "TASOC" r then set_true k a' else a'),
           (if found "QLP" r then set_true k b' else b').
    split.
    { assert (Hka : Nat.ltb k (List.length a') = true) by (apply Nat.ltb_lt; lia).
      assert (Hkb : Nat.ltb k (List.length b') = true) by (apply Nat.ltb_lt; lia).
      unfold mark.
      destruct (found "TASOC" r), (found "QLP" r);
        cbn [bind systems TASOC QLP]; rewrite ?Hka, ?Hkb;
        cbn [bind systems TASOC QLP]; rewrite ?Hka, ?Hkb; reflexivity. }
    split; [destruct (found "TASOC" r); rewrite ?set_true_length; exact Hla' | ].
    split; [destruct (found "QLP" r); rewrite ?set_true_length; exact Hlb' | ].
    split; intros j.
    + rewrite <- HfT. apply Hstep; assumption.
    + rewrite <- HfQ. apply Hstep; assumption.
Qed.

Lemma nth_found_at (name : string) (rows : Table) (j : nat) :
  nth j (map (found name) rows) false = found_at name rows j.
Proof.
  unfold found_at. revert j. induction rows as [| r rows IH]; intros [| j]; cbn;
    try reflexivity. apply IH.
Qed.

Lemma nth_repeat_false (n j : nat) : nth j (repeat false n) false = false.
Proof. revert j. induction n as [| n IH]; intros [| j]; cbn; try reflexivity. apply IH. Qed.

Lemma np_sum_map {A : Type} (f : A -> bool) (l : list A) :
  np_sum (map f l) = List.length (filter f l).
Proof.
  unfold np_sum. induction l as [| a l IH]; [reflexivity | ].
  cbn [map filter]. destruct (f a); cbn [List.length]; rewrite IH; reflexivity.
Qed.

Lemma init_flags_result (tbl : Flagged) :
  init_flags tbl
  = Some (mkFlagged (systems tbl)
            (Some (repeat false (List.length (systems tbl))))
            (Some (repeat false (List.length (systems tbl))))).
Proof.
  unfold init_flags, add_column_TASOC, add_column_QLP, setitem_TASOC, setitem_QLP.
  destruct tbl as [rows [a |] [b |]]; cbn [systems TASOC QLP];
    rewrite ?repeat_length, ?Nat.eqb_refl; cbn [bind systems TASOC QLP];
    rewrite ?repeat_length, ?Nat.eqb_refl; reflexivity.
Qed.

(** X18: the flag cell followed by the loop over the systems: whatever
    flag columns the table had, the cell does not raise and the loop runs to
    its end; afterwards the rows are as they were, the flag of each system
    tells whether the archive holds an observation of that provenance at its
    coordinates, and [np.sum] of a flag column counts those systems. *)
Theorem flags_tell_archive_holdings (tbl : Flagged) :
  exists (flagged done : Flagged) (a b : list bool),
    init_flags tbl = Some flagged /\
    crossmatch (List.length (systems flagged)) flagged = Some done /\
    systems done = systems tbl /\
    TASOC done = Some a /\ QLP done = Some b /\
    a = map (found "TASOC") (systems tbl) /\
    b = map (found "QLP") (systems tbl) /\
    np_sum a = List.length (filter (found "TASOC") (systems tbl)) /\
    np_sum b = List.length (filter (found "QLP") (systems tbl)).
Proof.
  set (n := List.length (systems tbl)).
  set (flagged := mkFlagged (systems tbl) (Some (repeat false n)) (Some (repeat false n))).
  destruct (crossmatch_turns flagged (repeat false n) (repeat false n) n
              eq_refl eq_refl (repeat_length _ _) (repeat_length _ _) (Nat.le_refl _))
    as (a & b & Hrun & Hla & Hlb & Hna & Hnb).
  rewrite repeat_length in Hla, Hlb.
  assert (Ea : a = map (found "TASOC") (systems tbl)).
  { apply (nth_ext _ _ false false); [rewrite length_map; exact Hla | ].
    intros j Hj. rewrite Hna, nth_repeat_false, nth_found_at. cbn [orb systems].
    replace (Nat.ltb j n) with true by (symmetry; apply Nat.ltb_lt; lia). reflexivity. }
  assert (Eb : b = map (found "QLP") (systems tbl)).
  { apply (nth_ext _ _ false false); [rewrite length_map; exact Hlb | ].
    intros j Hj. rewrite Hnb, nth_repeat_false, nth_found_at. cbn [orb systems].
    replace (Nat.ltb j n) with true by (symmetry; apply Nat.ltb_lt; lia). reflexivity. }
  exists flagged, (mkFlagged (systems tbl) (Some a) (Some b)), a, b.
  split; [apply init_flags_result | ].
  split; [exact Hrun | ].
  split; [reflexivity | ]. split; [reflexivity | ]. split; [reflexivity | ].
  split; [exact Ea | ]. split; [exact Eb | ].
  rewrite Ea, Eb, !np_sum_map. split; reflexivity.
Qed.

(** X19: the loop alone only ever sets flags: run on a table whose flag
    columns have the length of the table, it runs to its end, leaves each
    flag that was set and sets the flag of each system for which the archive
    holds an observation of the provenance. *)
Theorem crossmatch_only_sets_flags (tbl : Flagged) (a b : list bool) :
  TASOC tbl = Some a -> QLP tbl = Some b ->
  List.length a = List.length (systems tbl) ->
  List.length b = List.length (systems tbl) ->
  exists a' b' : list bool,
    crossmatch (List.length (systems tbl)) tbl
      = Some (mkFlagged (systems tbl) (Some a') (Some b')) /\
    a' = map (fun p => (fst p || found "TASOC" (snd p))%bool) (combine a (systems tbl)) /\
    b' = map (fun p => (fst p || found "QLP" (snd p))%bool) (combine b (systems tbl)).
Proof.
  intros Ha Hb Hla Hlb.
  destruct (crossmatch_turns tbl a b (List.length (systems tbl)) Ha Hb Hla Hlb (Nat.le_refl _))
    as (a' & b' & Hrun & Hla' & Hlb' & Hna & Hnb).
  assert (Hzip : forall (name : string) (old : list bool) (j : nat),
            List.length old = List.length (systems tbl) ->
            (j < List.length (systems tbl))%nat ->
            nth j (map (fun p => (fst p || found name (snd p))%bool)
                       (combine old (systems tbl))) false
            = (nth j old false || found_at name (systems tbl) j)%bool).
  { intros name old j. unfold found_at. generalize (systems tbl) as rows.
    revert old. induction j as [| j IHj]; intros [| o old] [| r rows] Hl Hj;
      cbn in Hl, Hj |- *; try lia; try reflexivity.
    apply IHj; lia. }
  exists a', b'. split; [exact Hrun | ]. split.
  - apply (nth_ext _ _ false false).
    + rewrite length_map, length_combine, Hla', Hla. lia.
    + intros j Hj. rewrite Hna, Hzip by lia.
      replace (Nat.ltb j (List.length (systems tbl))) with true
        by (symmetry; apply Nat.ltb_lt; lia). reflexivity.
  - apply (nth_ext _ _ false false).
    + rewrite length_map, length_combine, Hlb', Hlb. lia.
    + intros j Hj. rewrite Hnb, Hzip by lia.
      replace (Nat.ltb j (List.length (systems tbl))) with true
        by (symmetry; apply Nat.ltb_lt; lia). reflexivity.
Qed.

End Archive.

Lemma crossmatch_only_sets_flags_witness :
  exists a' b' : list bool,
    crossmatch tasoc_everywhere
        (List.length (systems (mkFlagged three_systems
                                 (Some [false; true; false]) (Some [true; false; false]))))
        (mkFlagged three_systems (Some [false; true; false]) (Some [true; false; false]))
      = Some (mkFlagged
                (systems (mkFlagged three_systems
                            (Some [false; true; false]) (Some [true; false; false])))
                (Some a') (Some b')) /\
    a' = map (fun p => (fst p || found tasoc_everywhere "TASOC" (snd p))%bool)
             (combine [false; true; false]
                (systems (mkFlagged three_systems
                            (Some [false; true; false]) (Some [true; false; false])))) /\
    b' = map (fun p => (fst p || found tasoc_everywhere "QLP" (snd p))%bool)
             (combine [true; false; false]
                (systems (mkFlagged three_systems
                            (Some [false; true; false]) (Some [true; false; false])))).
Proof.
  apply (crossmatch_only_sets_flags tasoc_everywhere
           (mkFlagged three_systems (Some [false; true; false]) (Some [true; false; false]))
           [false; true; false] [true; false; false]); reflexivity.
Defined.

End Crossmatch.

(** ** Eclipse candidates notebook: the system searched for first *)

Module Ranking.

Import QArith String Candidates.
Local Open Scope Q_scope.

(** [tbl['RAJ2000'].data[ind]] and [tbl['DEJ2000'].data[ind]], the
    coordinate searched for; an index past the end of the table raises
    [IndexError], here [None]. *)
Definition coordinate (tbl : Table) (ind : nat) : option (Q * Q) :=
  match nth_error tbl ind with
  | Some r => Some (RAJ2000 r, DEJ2000 r)
  | None => None
  end.

Lemma select_sorted (sort : Table -> Table) (tbl : Table) :
  sorts_by_qmin sort ->
  Permutation (filter (fun r => negb (mask r)) tbl) (select sort tbl) /\
  StronglySorted measured_ge (select sort tbl).
Proof.
  intros Hsort. destruct (Hsort tbl) as [Hperm Hsorted]. split.
  - unfold select. apply filter_perm.
    etransitivity; [exact Hperm | apply Permutation_rev].
  - apply descending_measured.
    + unfold select. apply sorted_filter. apply sorted_rev. exact Hsorted.
    + unfold select. apply Forall_forall. intros r Hr. apply filter_In in Hr.
      destruct Hr as [_ Hm]. destruct (mask r); [discriminate | reflexivity].
Qed.

(** X20: the number of systems the cell prints is the number of catalogue
    rows with a measured [qmin]; the search at [ind=0] raises exactly when
    no row has one; otherwise the system at index 0 is a row of the
    catalogue whose [qmin] is at least that of every row that has one. *)
Theorem first_system_has_largest_qmin (sort : Table -> Table) (tbl : Table) :
  sorts_by_qmin sort ->
  List.length (select sort tbl) = List.length (filter (fun r => negb (mask r)) tbl) /\
  (coordinate (select sort tbl) 0 = None <-> forall r, In r tbl -> mask r = true) /\
  (forall r0 : System, nth_error (select sort tbl) 0 = Some r0 ->
     In r0 tbl /\
     coordinate (select sort tbl) 0 = Some (RAJ2000 r0, DEJ2000 r0) /\
     forall (r : System) (a : Q), In r tbl -> qmin r = Some a ->
       exists a0 : Q, qmin r0 = Some a0 /\ a <= a0).
Proof.
  intros Hsort. destruct (select_sorted sort tbl Hsort) as [Hperm Hdesc].
  split; [symmetry; apply Permutation_length; exact Hperm | ].
  split.
  - unfold coordinate. split.
    + intros Hnone r Hr. destruct (mask r) eqn:Em; [reflexivity | exfalso].
      assert (Hin : In r (select sort tbl)).
      { apply (Permutation_in _ Hperm). apply filter_In. split; [exact Hr | ].
        rewrite Em. reflexivity. }
      destruct (select sort tbl) as [| r0 rest]; [exact Hin | discriminate].
    + intros Hall. destruct (select sort tbl) as [| r0 rest] eqn:Es; [reflexivity | exfalso].
      assert (Hin : In r0 (filter (fun r => negb (mask r)) tbl)).
      { apply (Permutation_in _ (Permutation_sym Hperm)). left. reflexivity. }
      apply filter_In in Hin. destruct Hin as [Hin Hm].
      rewrite (Hall r0 Hin) in Hm. discriminate.
  - intros r0 Hnth. unfold coordinate. rewrite Hnth.
    destruct (select sort tbl) as [| r0' rest] eqn:Es; [discriminate | ].
    cbn in Hnth. injection Hnth as ->.
    assert (Hin0 : In r0 (filter (fun r => negb (mask r)) tbl)).
    { apply (Permutation_in _ (Permutation_sym Hperm)). left. reflexivity. }
    apply filter_In in Hin0. destruct Hin0 as [Hin0 Hm0].
    split; [exact Hin0 | ]. split; [reflexivity | ].
    intros r a Hr Ha.
    assert (Hin : In r (r0 :: rest)).
    { apply (Permutation_in _ Hperm). apply filter_In. split; [exact Hr | ].
      unfold mask. rewrite Ha. reflexivity. }
    destruct Hin as [<- | Hrest].
    + exists a. split; [exact Ha | apply Qle_refl].
    + inversion Hdesc as [| ? ? _ Hall]; subst.
      rewrite Forall_forall in Hall. destruct (Hall r Hrest) as (a0 & b & H0 & Hb & Hle).
      exists a0. split; [exact H0 | ]. rewrite Ha in Hb. injection Hb as <-. exact Hle.
Qed.

Lemma first_system_has_largest_qmin_witness :
  List.length (select sort_qmin three_systems)
    = List.length (filter (fun r => negb (mask r)) three_systems) /\
  (coordinate (select sort_qmin three_systems) 0 = None
   <-> forall r, In r three_systems -> mask r = true) /\
  (forall r0 : System, nth_error (select sort_qmin three_systems) 0 = Some r0 ->
     In r0 three_systems /\
     coordinate (select sort_qmin three_systems) 0 = Some (RAJ2000 r0, DEJ2000 r0) /\
     forall (r : System) (a : Q), In r three_systems -> qmin r = Some a ->
       exists a0 : Q, qmin r0 = Some a0 /\ a <= a0).
Proof.
  apply (first_system_has_largest_qmin sort_qmin three_systems). exact sort_qmin_sorts.
Defined.

End Ranking.

(** ** SpectralDB notebook: file names of the search results *)

Module Products.

Import Ascii String Fallible PyStr.
Local Open Scope string_scope.

(** [uri='mast:JWST/product/'+filename] *)
Definition uri_of (filename : string) : string := "mast:JWST/product/" ++ filename.

(** [filename=uri.split('/')[-1]] *)
Definition filename_of (uri : string) : string := last_piece (split "/" uri).

(** One entry of [r1a.json()['results']], a JSON object read as a [dict]:
    the value of a key, [None] for a key it does not have. *)
Definition Result : Type := string -> option string.

(** [allfilenames=[]] and
    [for i in range(0,lenr1a): allfilenames.append(r1a.json()['results'][i]['fileName'])]
    with [lenr1a=len(r1a.json()['results'])]; a result without the key
    raises [KeyError], here [None]. *)
Definition collect (results : list Result) : option (list string) :=
  let lenr1a := List.length results in
  fold_left
    (fun acc i =>
       allfilenames <- acc ;;
       result <- nth_error results i ;;
       name <- result "fileName" ;;
       Some (allfilenames ++ [name])%list)
    (seq 0 lenr1a) (Some []).

(** The order of [np.unique] on strings: by code point, a proper prefix
    first. *)
Definition before (a b : string) : Prop := String.compare a b = Lt.

Fixpoint insert_unique (s : string) (l : list string) : list string :=
  match l with
  | [] => [s]
  | x :: l' =>
    match String.compare s x with
    | Lt => s :: l
    | Eq => l
    | Gt => x :: insert_unique s l'
    end
  end.

(** [np.unique(allfilenames)]: the distinct values in increasing order. *)
Definition np_unique (l : list string) : list string := fold_right insert_unique [] l.

(** A result with the given file name and no other key. *)
Definition named (name : string) : Result :=
  fun key => if String.eqb key "fileName" then Some name else None.

Lemma last_split_app (sep : ascii) (a b : string) :
  last_piece (split sep (a ++ String sep b)) = last_piece (split sep b).
Proof.
  unfold last_piece. induction a as [| c a IH]; cbn [append split].
  - rewrite Ascii.eqb_refl. cbn [last].
    destruct (split sep b) eqn:E; [exfalso; exact (split_not_nil sep b E) | reflexivity].
  - destruct (Ascii.eqb c sep).
    + cbn [last].
      destruct (split sep (a ++ String sep b)) eqn:E;
        [exfalso; exact (split_not_nil _ _ E) | exact IH].
    + pose proof (split_length_ge_2 sep (a ++ String sep b)
                    (contains_app_sep sep a b)) as Hlen.
      destruct (split sep (a ++ String sep b)) as [| p [| q rest]];
        cbn [List.length] in Hlen; try lia.
      exact IH.
Qed.

Lemma before_trans (a b c : string) : before a b -> before b c -> before a c.
Proof.
  unfold before. intros H1 H2.
  apply OrderedTypeEx.String_as_OT.cmp_lt.
  apply (OrderedTypeEx.String_as_OT.lt_trans a b c);
    apply OrderedTypeEx.String_as_OT.cmp_lt; assumption.
Qed.

Lemma insert_unique_In (s x : string) (l : list string) :
  In x (insert_unique s l) <-> x = s \/ In x l.
Proof.
  induction l as [| y l IH]; cbn [insert_unique].
  - cbn. intuition.
  - destruct (String.compare s y) eqn:E.
    + apply String.compare_eq_iff in E. subst y. cbn. intuition.
    + cbn. intuition.
    + cbn [In]. rewrite IH. intuition.
Qed.

Lemma insert_unique_sorted (s : string) (l : list string) :
  StronglySorted before l -> StronglySorted before (insert_unique s l).
Proof.
  induction 1 as [| y l Hs IH Hall]; cbn [insert_unique].
  - constructor; constructor.
  - destruct (String.compare s y) eqn:E.
    + constructor; assumption.
    + constructor; [constructor; assumption | ].
      constructor; [exact E | ].
      eapply Forall_impl; [ | exact Hall]. intros z Hz. exact (before_trans s y z E Hz).
    + constructor; [exact IH | ].
      apply Forall_forall. intros z Hz. apply insert_unique_In in Hz.
      destruct Hz as [-> | Hz].
      * unfold before. rewrite String.compare_antisym, E. reflexivity.
      * rewrite Forall_forall in Hall. apply Hall. exact Hz.
Qed.

Lemma np_unique_sorted (l : list string) : StronglySorted before (np_unique l).
Proof.
  induction l as [| s l IH]; cbn [np_unique fold_right]; [constructor | ].
  apply insert_unique_sorted. exact IH.
Qed.

Lemma np_unique_In (l : list string) (x : string) : In x (np_unique l) <-> In x l.
Proof.
  induction l as [| s l IH]; cbn [np_unique fold_right]; [reflexivity | ].
  rewrite insert_unique_In. fold (np_unique l). rewrite IH. cbn. intuition.
Qed.

Lemma before_irrefl (a : string) : ~ before a a.
Proof.
  unfold before. intros H.
  pose proof (String.compare_antisym a a) as Hanti. rewrite H in Hanti. discriminate.
Qed.

Lemma sorted_NoDup (l : list string) : StronglySorted before l -> NoDup l.
Proof.
  induction 1 as [| a l Hs IH Hall]; constructor; [ | exact IH].
  intros Hin. rewrite Forall_forall in Hall. exact (before_irrefl a (Hall a Hin)).
Qed.

(** The loop over the indices reads the results one after the other. *)
Lemma collect_from (pre results : list Result) (acc : option (list string)) :
  fold_left
    (fun acc i =>
       allfilenames <- acc ;;
       result <- nth_error (pre ++ results)%list i ;;
       name <- result "fileName" ;;
       Some (allfilenames ++ [name])%list)
    (seq (List.length pre) (List.length results)) acc
  = fold_left
      (fun acc result =>
         allfilenames <- acc ;;
         name <- result "fileName" ;;
         Some (allfilenames ++ [name])%list)
      results acc.
Proof.
  revert pre acc. induction results as [| r results IH]; intros pre acc; [reflexivity | ].
  cbn [List.length seq fold_left].
  rewrite nth_error_app2 by lia. rewrite Nat.sub_diag. cbn [nth_error].
  replace (pre ++ r :: results)%list with ((pre ++ [r]) ++ results)%list
    by (rewrite <- app_assoc; reflexivity).
  replace (S (List.length pre)) with (List.length (pre ++ [r])%list)
    by (rewrite length_app; cbn; lia).
  rewrite IH. reflexivity.
Qed.

Lemma collect_raised (results : list Result) :
  fold_left
    (fun acc result =>
       allfilenames <- acc ;;
       name <- result "fileName" ;;
       Some (allfilenames ++ [name])%list)
    results None = None.
Proof. induction results as [| r results IH]; [reflexivity | exact IH]. Qed.

Lemma collect_names (results : list Result) (names acc : list string) :
  map (fun r : Result => r "fileName") results = map Some names ->
  fold_left
    (fun acc result =>
       allfilenames <- acc ;;
       name <- result "fileName" ;;
       Some (allfilenames ++ [name])%list)
    results (Some acc) = Some (acc ++ names)%list.
Proof.
  revert names acc. induction results as [| r results IH]; intros [| n names] acc Hmap;
    try discriminate.
  - cbn. rewrite app_nil_r. reflexivity.
  - cbn [map] in Hmap. injection Hmap as Hr Hrest.
    cbn [fold_left bind]. rewrite Hr. cbn [bind].
    rewrite (IH names (acc ++ [n])%list Hrest), <- app_assoc. reflexivity.
Qed.

(** X21: the file name taken from the uri is the file name the uri was
    built from, when that name has no slash; in general it is what follows
    the last slash of the uri. *)
Theorem filename_of_uri (filename : string) :
  contains "/" filename = false ->
  filename_of (uri_of filename) = filename /\
  forall folder : string,
    filename_of (uri_of (folder ++ String "/" filename)) = filename.
Proof.
  intros Hclean.
  assert (Hlast : forall a : string,
            filename_of (a ++ String "/" filename) = filename).
  { intros a. unfold filename_of. rewrite last_split_app.
    rewrite (split_without_sep "/" filename Hclean). reflexivity. }
  split.
  - exact (Hlast "mast:JWST/product").
  - intros folder. unfold uri_of. rewrite <- append_assoc. apply Hlast.
Qed.

Lemma filename_of_uri_witness :
  filename_of (uri_of "jw01039-o005_t001_miri_ch3-shortlongmedium-_x1d.fits")
    = "jw01039-o005_t001_miri_ch3-shortlongmedium-_x1d.fits" /\
  forall folder : string,
    filename_of (uri_of (folder ++ String "/"
                           "jw01039-o005_t001_miri_ch3-shortlongmedium-_x1d.fits"))
      = "jw01039-o005_t001_miri_ch3-shortlongmedium-_x1d.fits".
Proof.
  apply (filename_of_uri "jw01039-o005_t001_miri_ch3-shortlongmedium-_x1d.fits").
  reflexivity.
Defined.

(** X22: when every result has a [fileName], the loop collects the file
    names in the order of the results, and [np.unique] of them is the
    strictly increasing list, so without repetition, of exactly the names
    that occur. *)
Theorem unique_filenames_of_results (results : list Result) (names : list string) :
  map (fun r : Result => r "fileName") results = map Some names ->
  collect results = Some names /\
  StronglySorted before (np_unique names) /\
  NoDup (np_unique names) /\
  forall name : string,
    In name (np_unique names) <-> exists r : Result, In r results /\ r "fileName" = Some name.
Proof.
  intros Hmap.
  split; [unfold collect; rewrite (collect_from [] results); apply (collect_names results names [] Hmap) | ].
  split; [apply np_unique_sorted | ].
  split; [apply sorted_NoDup; apply np_unique_sorted | ].
  intros name. rewrite np_unique_In. split.
  - intros Hin. assert (Hs : In (Some name) (map Some names)) by (apply in_map; exact Hin).
    rewrite <- Hmap in Hs. apply in_map_iff in Hs. destruct Hs as [r [Hr Hin']].
    exists r. split; assumption.
  - intros [r [Hin Hr]].
    assert (Hs : In (Some name) (map (fun r : Result => r "fileName") results)).
    { apply in_map_iff. exists r. split; assumption. }
    rewrite Hmap in Hs. apply in_map_iff in Hs. destruct Hs as [n [Hn Hin']].
    injection Hn as ->. exact Hin'.
Qed.

Lemma unique_filenames_of_results_witness :
  collect [named "b.fits"; named "a.fits"; named "b.fits"]
    = Some ["b.fits"; "a.fits"; "b.fits"] /\
  StronglySorted before (np_unique ["b.fits"; "a.fits"; "b.fits"]) /\
  NoDup (np_unique ["b.fits"; "a.fits"; "b.fits"]) /\
  forall name : string,
    In name (np_unique ["b.fits"; "a.fits"; "b.fits"])
    <-> exists r : Result,
          In r [named "b.fits"; named "a.fits"; named "b.fits"] /\ r "fileName" = Some name.
Proof.
  apply (unique_filenames_of_results [named "b.fits"; named "a.fits"; named "b.fits"]
           ["b.fits"; "a.fits"; "b.fits"]).
  reflexivity.
Defined.

(** X23: a result without a [fileName] makes the loop raise: no list of
    file names is built, whatever the other results hold. *)
Theorem collect_raises_without_fileName (before_it after_it : list Result) (r : Result) :
  r "fileName" = None ->
  collect (before_it ++ r :: after_it)%list = None.
Proof.
  intros Hr. unfold collect. rewrite (collect_from [] (before_it ++ r :: after_it)%list).
  rewrite fold_left_app. cbn [fold_left].
  destruct (fold_left _ before_it (Some [])) as [acc |]; cbn [bind];
    [rewrite Hr; cbn [bind] | ]; apply collect_raised.
Qed.

Lemma collect_raises_without_fileName_witness :
  collect ([named "a.fits"] ++ (fun _ => None) :: [named "b.fits"])%list = None.
Proof.
  apply (collect_raises_without_fileName [named "a.fits"] [named "b.fits"] (fun _ => None)).
  reflexivity.
Defined.

(** X27: a file name without an underscore is one piece, which the slice
    drops: the search string is empty, and so is the search string of a name
    whose only underscore is its first character. *)
Theorem search_empty_without_prefix (filename : string) :
  contains "_" filename = false ->
  split "_" filename = [filename] /\
  SpectralDB.search_of filename = EmptyString /\
  SpectralDB.search_of (String "_" filename) = EmptyString.
Proof.
  intros Hclean. split; [apply split_without_sep; exact Hclean | ].
  unfold SpectralDB.search_of. cbn [split]. rewrite Ascii.eqb_refl.
  rewrite (split_without_sep "_" filename Hclean). split; reflexivity.
Qed.

Lemma search_empty_without_prefix_witness :
  split "_" "spectrum.fits" = ["spectrum.fits"] /\
  SpectralDB.search_of "spectrum.fits" = EmptyString /\
  SpectralDB.search_of (String "_" "spectrum.fits") = EmptyString.
Proof.
  apply (search_empty_without_prefix "spectrum.fits"). reflexivity.
Defined.

End Products.

(** ** PS1 notebook: the three images of the colour cell *)

Module Colour.

Import Floats Fallible NDArray PS1.

(** An image with every NaN replaced by zero. *)
Definition scrubbed_image (a : ndarray2) : ndarray2 := map (map scrubbed) a.

(** The heap [h'] is the heap [h] with the images named in [names]
    scrubbed: each of them holds its scrubbed image, every other object is as
    it was. *)
Definition scrubbed_on (names : list nat) (h h' : Heap) : Prop :=
  forall r : nat,
    h' r = if existsb (Nat.eqb r) names then option_map scrubbed_image (h r) else h r.

(** A heap with two images, each with one NaN pixel. *)
Definition aliased_images : Heap :=
  store (store (fun _ => None) 0 [[1; nan]]%float) 1 [[nan; 2]]%float.

Lemma scrubbed_idempotent (x : float) : scrubbed (scrubbed x) = scrubbed x.
Proof. unfold scrubbed at 1. rewrite scrubbed_not_nan. reflexivity. Qed.

Lemma scrubbed_image_idempotent (a : ndarray2) :
  scrubbed_image (scrubbed_image a) = scrubbed_image a.
Proof.
  unfold scrubbed_image. rewrite map_map. apply map_ext. intros row.
  rewrite map_map. apply map_ext. intros x. apply scrubbed_idempotent.
Qed.

Lemma scrub_nan_store (r : nat) (h : Heap) (a : ndarray2) :
  h r = Some a -> scrub_nan r h = Some (store h r (scrubbed_image a)).
Proof.
  intros Hr. unfold scrub_nan. rewrite Hr, setitem_isnan. reflexivity.
Qed.

(** One more assignment on a heap where some images are scrubbed already. *)
Lemma scrub_nan_on (names : list nat) (r : nat) (h h' : Heap) (a : ndarray2) :
  scrubbed_on names h h' -> h r = Some a ->
  exists h'' : Heap, scrub_nan r h' = Some h'' /\ scrubbed_on (r :: names) h h''.
Proof.
  intros Hon Hr.
  assert (Hcur : h' r = Some a \/ h' r = Some (scrubbed_image a)).
  { rewrite (Hon r), Hr. destruct (existsb (Nat.eqb r) names); [right | left]; reflexivity. }
  assert (Hnew : exists cur, h' r = Some cur /\ scrubbed_image cur = scrubbed_image a).
  { destruct Hcur as [E | E]; eexists; (split; [exact E | ]);
      [reflexivity | apply scrubbed_image_idempotent]. }
  destruct Hnew as (cur & Ecur & Esame).
  exists (store h' r (scrubbed_image cur)).
  split; [apply scrub_nan_store; exact Ecur | ].
  intros r'. unfold store. cbn [existsb].
  destruct (Nat.eqb_spec r' r) as [-> | Hne]; cbn [orb].
  - rewrite Hr, Esame. reflexivity.
  - apply Hon.
Qed.

Lemma scrub_three_on (red blue green : nat) (h : Heap) (r g b : ndarray2) :
  h red = Some r -> h blue = Some b -> h green = Some g ->
  exists h' : Heap,
    scrub_three red blue green h = Some h' /\ scrubbed_on [green; blue; red] h h'.
Proof.
  intros Hr Hb Hg.
  assert (H0 : scrubbed_on [] h h) by (intros x; reflexivity).
  destruct (scrub_nan_on [] red h h r H0 Hr) as (h1 & E1 & On1).
  destruct (scrub_nan_on [red] blue h h1 b On1 Hb) as (h2 & E2 & On2).
  destruct (scrub_nan_on [blue; red] green h h2 g On2 Hg) as (h3 & E3 & On3).
  exists h3. split; [ | exact On3].
  unfold scrub_three. rewrite E1. cbn [bind]. rewrite E2. cbn [bind]. exact E3.
Qed.

(** X24: the three assignments of the colour cell, whether or not two of
    the names are one array: afterwards each named image is its scrubbed
    image, scrubbed once however often it was named, every other array is as
    it was, and running the cell again changes nothing. *)
Theorem scrub_three_any_names (red blue green : nat) (h : Heap) (r g b : ndarray2) :
  h red = Some r -> h blue = Some b -> h green = Some g ->
  exists h' h'' : Heap,
    scrub_three red blue green h = Some h' /\
    h' red = Some (scrubbed_image r) /\
    h' blue = Some (scrubbed_image b) /\
    h' green = Some (scrubbed_image g) /\
    (forall r', r' <> red -> r' <> blue -> r' <> green -> h' r' = h r') /\
    scrub_three red blue green h' = Some h'' /\
    (forall r', h'' r' = h' r').
Proof.
  intros Hr Hb Hg.
  destruct (scrub_three_on red blue green h r g b Hr Hb Hg) as (h' & Erun & On).
  assert (Hred : h' red = Some (scrubbed_image r)).
  { rewrite (On red), Hr. cbn [existsb]. rewrite Nat.eqb_refl, !orb_true_r. reflexivity. }
  assert (Hblue : h' blue = Some (scrubbed_image b)).
  { rewrite (On blue), Hb. cbn [existsb]. rewrite Nat.eqb_refl, !orb_true_r. reflexivity. }
  assert (Hgreen : h' green = Some (scrubbed_image g)).
  { rewrite (On green), Hg. cbn [existsb]. rewrite Nat.eqb_refl. reflexivity. }
  destruct (scrub_three_on red blue green h' _ _ _ Hred Hblue Hgreen) as (h'' & Erun' & On').
  exists h', h''.
  split; [exact Erun | ]. split; [exact Hred | ]. split; [exact Hblue | ].
  split; [exact Hgreen | ]. split.
  - intros r' H1 H2 H3. rewrite (On r'). cbn [existsb].
    destruct (Nat.eqb_spec r' green); [contradiction | ].
    destruct (Nat.eqb_spec r' blue); [contradiction | ].
    destruct (Nat.eqb_spec r' red); [contradiction | reflexivity].
  - split; [exact Erun' | ].
    intros r'. rewrite (On' r').
    destruct (existsb (Nat.eqb r') [green; blue; red]) eqn:E; [ | reflexivity].
    rewrite (On r'), E. destruct (h r') as [a |]; cbn [option_map]; [ | reflexivity].
    rewrite scrubbed_image_idempotent. reflexivity.
Qed.

Lemma scrub_three_any_names_witness :
  exists h' h'' : Heap,
    scrub_three 0 0 1 aliased_images = Some h' /\
    h' 0 = Some (scrubbed_image [[1; nan]]%float) /\
    h' 0 = Some (scrubbed_image [[1; nan]]%float) /\
    h' 1 = Some (scrubbed_image [[nan; 2]]%float) /\
    (forall r', r' <> 0 -> r' <> 0 -> r' <> 1 -> h' r' = aliased_images r') /\
    scrub_three 0 0 1 h' = Some h'' /\
    (forall r', h'' r' = h' r').
Proof.
  apply (scrub_three_any_names 0 0 1 aliased_images
           [[1; nan]]%float [[nan; 2]]%float [[1; nan]]%float); reflexivity.
Defined.

End Colour.

(** ** Leo I notebook: the stars kept for the second plot and the spectrum chosen *)

Module LeoI.

Import QArith String Floats Fallible UVSpectra.
Local Open Scope Q_scope.

(** A row of the PanSTARRS table with the columns the cells read, binary64
    values. *)
Record Star := mkStar {
  raMean : float; decMean : float;
  gMeanApMag : float; rMeanApMag : float; iMeanApMag : float
}.

(** [(tab["raMean"] <= float(ra)+0.075) & (tab["decMean"] <= float(dec)+0.075)]
    on one row, [ra] and [dec] being the floats read from the two strings;
    the constant is the binary64 value of 0.075. *)
Definition selected (ra dec : float) (s : Star) : bool :=
  ((raMean s <=? ra + 0x1.3333333333333p-4) && (decMean s <=? dec + 0x1.3333333333333p-4))%float.

(** [col[ind]] for an array of indices: the entries at these indices, in
    their order; an index past the end raises [IndexError], here [None]. *)
Fixpoint take {A : Type} (col : list A) (ind : list nat) : option (list A) :=
  match ind with
  | [] => Some []
  | i :: ind' =>
    x <- nth_error col i ;;
    rest <- take col ind' ;;
    Some (x :: rest)
  end.

(** [a - b] on two arrays of one length. *)
Definition np_subtract (a b : list float) : list float :=
  map (fun p => (fst p - snd p)%float) (combine a b).

Record Outer := mkOuter {
  g_mag_outer : list float; r_mag_outer : list float; i_mag_outer : list float;
  g_r_outer : list float; r_i_outer : list float
}.

(** The cell that picks the stars of the second plot. *)
Definition outer_stars (ra dec : float) (tab : list Star) : option Outer :=
  let ind := np_where (selected ra dec) tab in
  g_mag_outer <- take (map gMeanApMag tab) ind ;;
  r_mag_outer <- take (map rMeanApMag tab) ind ;;
  i_mag_outer <- take (map iMeanApMag tab) ind ;;
  let g_r_outer := np_subtract g_mag_outer r_mag_outer in
  let r_i_outer := np_subtract r_mag_outer i_mag_outer in
  Some (mkOuter g_mag_outer r_mag_outer i_mag_outer g_r_outer r_i_outer).

(** The position of Leo I as the notebook gives it, [float("152.1146")] and
    [float("12.3059")], and a star that the catalogue puts at
    (152.1896, 12.3059), 0.075 degrees east of it in decimals; each is
    written as the binary64 value nearest to the decimal. *)
Definition leo_ra : float := 0x1.303aacd9e83e4p+7.
Definition leo_dec : float := 0x1.89c9eecbfb15bp+3.
Definition star_at_bound : Star :=
  mkStar 0x1.306113404ea4bp+7 0x1.89c9eecbfb15bp+3 20 19 18.







Lemma take_where_from {T A : Type} (col : T -> A) (p : T -> bool)
    (pre rows : list T) :
  take (map col (pre ++ rows)) (where_from (List.length pre) p rows)
  = Some (map col (filter p rows)).
Proof.
  revert pre. induction rows as [| r rows IH]; intros pre; [reflexivity | ].
  assert (Hnext : take (map col (pre ++ r :: rows)) (where_from (S (List.length pre)) p rows)
                  = Some (map col (filter p rows))).
  { specialize (IH (pre ++ [r])%list).
    rewrite <- app_assoc in IH. cbn [app] in IH.
    rewrite length_app in IH. cbn [List.length] in IH.
    rewrite Nat.add_1_r in IH. exact IH. }
  cbn [where_from filter]. destruct (p r); [ | exact Hnext].
  cbn [take]. rewrite Hnext.
  rewrite nth_error_map, nth_error_app2 by lia. rewrite Nat.sub_diag. reflexivity.
Qed.

Lemma take_where {T A : Type} (col : T -> A) (p : T -> bool) (rows : list T) :
  take (map col rows) (np_where p rows) = Some (map col (filter p rows)).
Proof. exact (take_where_from col p [] rows). Qed.

Lemma np_subtract_columns {T : Type} (f g : T -> float) (rows : list T) :
  np_subtract (map f rows) (map g rows) = map (fun s => (f s - g s)%float) rows.
Proof.
  unfold np_subtract. rewrite Extinction.combine_map_map, map_map. reflexivity.
Qed.

Lemma nan_not_leb (x y : float) : is_nan x = true -> (x <=? y)%float = false.
Proof.
  unfold is_nan. rewrite FloatAxioms.eqb_spec, FloatAxioms.leb_spec.
  destruct (Prim2SF x) as [s | s | | s m e]; cbn; try (destruct s; discriminate);
    try reflexivity.
  unfold SpecFloat.SFeqb. cbn. rewrite Z.compare_refl, Pos.compare_refl.
  destruct s; discriminate.
Qed.





(** X25: the stars of the second plot are the table rows for which
    [raMean <= float(ra)+0.075] and [decMean <= float(dec)+0.075] hold as
    binary64 comparisons, the sum rounded as the code rounds it, in table
    order: the cell never raises, the five arrays have one entry for each
    such row, and no row whose [raMean] or [decMean] is NaN is among
    them. *)
Theorem outer_stars_are_a_quadrant (ra dec : float) (tab : list Star) :
  exists o : Outer,
    outer_stars ra dec tab = Some o /\
    g_mag_outer o = map gMeanApMag (filter (selected ra dec) tab) /\
    r_mag_outer o = map rMeanApMag (filter (selected ra dec) tab) /\
    i_mag_outer o = map iMeanApMag (filter (selected ra dec) tab) /\
    g_r_outer o
      = map (fun s => (gMeanApMag s - rMeanApMag s)%float) (filter (selected ra dec) tab) /\
    r_i_outer o
      = map (fun s => (rMeanApMag s - iMeanApMag s)%float) (filter (selected ra dec) tab) /\
    (forall s : Star, In s (filter (selected ra dec) tab) <->
       In s tab /\
       (raMean s <=? ra + 0x1.3333333333333p-4)%float = true /\
       (decMean s <=? dec + 0x1.3333333333333p-4)%float = true) /\
    (forall s : Star, In s (filter (selected ra dec) tab) ->
       is_nan (raMean s) = false /\ is_nan (decMean s) = false).
Proof.
  assert (Hsel : forall s : Star, In s (filter (selected ra dec) tab) <->
            In s tab /\
            (raMean s <=? ra + 0x1.3333333333333p-4)%float = true /\
            (decMean s <=? dec + 0x1.3333333333333p-4)%float = true).
  { intros s. rewrite filter_In. unfold selected. rewrite andb_true_iff. reflexivity. }
  eexists. split.
  { unfold outer_stars. rewrite !take_where. cbn [bind]. reflexivity. }
  cbn [g_mag_outer r_mag_outer i_mag_outer g_r_outer r_i_outer].
  split; [reflexivity | ]. split; [reflexivity | ]. split; [reflexivity | ].
  split; [apply np_subtract_columns | ]. split; [apply np_subtract_columns | ].
  split; [exact Hsel | ].
  intros s Hin. apply Hsel in Hin. destruct Hin as (_ & Hra & Hdec). split.
  - destruct (is_nan (raMean s)) eqn:E; [ | reflexivity].
    rewrite (nan_not_leb _ _ E) in Hra. discriminate.
  - destruct (is_nan (decMean s)) eqn:E; [ | reflexivity].
    rewrite (nan_not_leb _ _ E) in Hdec. discriminate.
Qed.

(** The bound is the rounded sum: [float("152.1146")+0.075] is
    152.18959999999998, below the binary64 value of 152.1896, so a star the
    catalogue puts at 152.1896 is not selected. *)
Lemma outer_bound_is_rounded :
  (leo_ra + 0x1.3333333333333p-4 <? raMean star_at_bound)%float = true /\
  outer_stars leo_ra leo_dec [star_at_bound] = Some (mkOuter [] [] [] [] []).
Proof. split; vm_compute; reflexivity. Qed.


End LeoI.
